(** * douyin_live_crawler: a shallow embedding of the session engine

    The development follows [douyin_live_crawler.py]:
    - the wire records of [protobuf.douyin] the crawler reads;
    - the aggregate [self.data] with its dedup cache, over an explicit
      store for the per-gift dictionaries (they are shared between
      [self.data] and the copy made by [_save_data]);
    - the handlers [_process_*_message], the dispatcher, [_on_message];
    - the snapshot writer [_save_data];
    - [_get_next_session_count], the [room_id] property and
      [_connectWebSocket].

    Conventions.  A Python [str] is a Rocq [string] holding its UTF-8
    bytes, so [s.encode('utf-8')] is [list_byte_of_string s].  Python
    [int]s are [Z].  What a method logs, sends, requests or writes is
    returned as a list of [Effect]s, oldest first. *)

From Stdlib Require Import ZArith String Ascii List Lia.
From stdpp Require Import gmap strings list fin_maps fin_sets pretty.
From Equations Require Import Equations.

Local Open Scope Z_scope.
Local Open Scope string_scope.
Local Open Scope list_scope.

(** ** Wire records (the fields of [protobuf.douyin] the crawler reads) *)

Definition bytes := list Byte.byte.

Record User := { id : Z; nick_name : string }.

Record GiftStruct := { name : string; diamond_count : Z }.

Record ChatMessage := { chat_user : User; content : string }.

Record GiftMessage := { gift_user : User; gift : GiftStruct; repeat_count : Z }.

Record MemberMessage := { member_user : User }.

Record LikeMessage := { count : Z }.

Record SocialMessage := { social_user : User }.

Record RoomUserSeqMessage := { total_user : Z }.

Record Message := { method : string; payload : bytes }.

Record Response := {
  messages_list : list Message;
  need_ack : bool;
  internal_ext : string
}.

Record PushFrame := {
  log_id : Z;
  payload_type : string;
  frame_payload : bytes
}.

(** The collaborators the module imports and does not define: the
    betterproto parsers (a parser that raises returns [None]),
    [gzip.decompress], and the order in which Python iterates over a set
    when [list(s)] is built, which is some enumeration of the set. *)
Record Runtime := {
  PushFrame_parse : bytes -> option PushFrame;
  PushFrame_SerializeToString : PushFrame -> bytes;
  gzip_decompress : bytes -> option bytes;
  Response_parse : bytes -> option Response;
  ChatMessage_parse : bytes -> option ChatMessage;
  GiftMessage_parse : bytes -> option GiftMessage;
  MemberMessage_parse : bytes -> option MemberMessage;
  LikeMessage_parse : bytes -> option LikeMessage;
  SocialMessage_parse : bytes -> option SocialMessage;
  RoomUserSeqMessage_parse : bytes -> option RoomUserSeqMessage;
  list_of_set : gset string -> list string;
  list_of_set_perm : forall X, list_of_set X ≡ₚ elements X
}.

(** ** The aggregate *)

(** A collection field is a [set] or, once converted for JSON, a [list]. *)
Inductive Coll :=
| PySet (s : gset string)
| PyList (l : list string).

(** [isinstance(c, set)] *)
Definition is_set (c : Coll) : bool :=
  match c with PySet _ => true | PyList _ => false end.

(** [set(c)] *)
Definition py_set (c : Coll) : gset string :=
  match c with PySet s => s | PyList l => list_to_set l end.

(** [len(c)] *)
Definition py_len (c : Coll) : nat :=
  match c with PySet s => size s | PyList l => length l end.

(** One value of [self.data["gifts"]]: a dictionary object. *)
Record GiftStat := {
  gift_count : Z;
  total_value : Z;
  senders : Coll
}.

Record ChatRecord := {
  chat_timestamp : Z;
  chat_user_id : string;
  chat_nickname : string;
  chat_content : string;
  chat_type : string
}.

Record FollowRecord := {
  follow_timestamp : Z;
  follow_user_id : string;
  follow_nickname : string
}.

(** Addresses of the per-gift dictionary objects. *)
Definition loc := positive.

(** [self.data].  The values of ["gifts"] are references into the store:
    the dictionaries they name are the objects both [self.data] and any
    shallow copy of it reach. *)
Record Data := {
  d_live_id : string;
  d_date : string;
  d_session : Z;
  d_user_id : string;
  d_nickname : string;
  total_viewers : Z;
  total_likes : Z;
  chat_messages : list ChatRecord;
  gifts : gmap string loc;
  members : Coll;
  follows : list FollowRecord
}.

(** The fields of [self] the modelled methods read or write, and the
    store of gift dictionaries. *)
Record Crawler := {
  live_id : string;
  today : string;
  session_count : Z;
  data : Data;
  store : gmap loc GiftStat;
  cache_members : gset string;   (* message_cache["members"] *)
  cache_gifts : gset string;     (* message_cache["gifts"] *)
  is_live : bool;
  room_id_cache : option string; (* __room_id *)
  ttwid_cache : option string    (* __ttwid *)
}.

Definition set_data (d : Data) (self : Crawler) : Crawler :=
  {| live_id := live_id self; today := today self;
     session_count := session_count self; data := d; store := store self;
     cache_members := cache_members self; cache_gifts := cache_gifts self;
     is_live := is_live self; room_id_cache := room_id_cache self;
     ttwid_cache := ttwid_cache self |}.

Definition set_store (h : gmap loc GiftStat) (self : Crawler) : Crawler :=
  {| live_id := live_id self; today := today self;
     session_count := session_count self; data := data self; store := h;
     cache_members := cache_members self; cache_gifts := cache_gifts self;
     is_live := is_live self; room_id_cache := room_id_cache self;
     ttwid_cache := ttwid_cache self |}.

Definition set_cache_members (c : gset string) (self : Crawler) : Crawler :=
  {| live_id := live_id self; today := today self;
     session_count := session_count self; data := data self;
     store := store self;
     cache_members := c; cache_gifts := cache_gifts self;
     is_live := is_live self; room_id_cache := room_id_cache self;
     ttwid_cache := ttwid_cache self |}.

Definition set_is_live (b : bool) (self : Crawler) : Crawler :=
  {| live_id := live_id self; today := today self;
     session_count := session_count self; data := data self;
     store := store self;
     cache_members := cache_members self; cache_gifts := cache_gifts self;
     is_live := b; room_id_cache := room_id_cache self;
     ttwid_cache := ttwid_cache self |}.

Definition set_room_id_cache (r : option string) (self : Crawler) : Crawler :=
  {| live_id := live_id self; today := today self;
     session_count := session_count self; data := data self;
     store := store self;
     cache_members := cache_members self; cache_gifts := cache_gifts self;
     is_live := is_live self; room_id_cache := r;
     ttwid_cache := ttwid_cache self |}.

Definition set_ttwid_cache (t : option string) (self : Crawler) : Crawler :=
  {| live_id := live_id self; today := today self;
     session_count := session_count self; data := data self;
     store := store self;
     cache_members := cache_members self; cache_gifts := cache_gifts self;
     is_live := is_live self; room_id_cache := room_id_cache self;
     ttwid_cache := t |}.

Definition set_total_viewers (v : Z) (d : Data) : Data :=
  {| d_live_id := d_live_id d; d_date := d_date d; d_session := d_session d;
     d_user_id := d_user_id d; d_nickname := d_nickname d;
     total_viewers := v; total_likes := total_likes d;
     chat_messages := chat_messages d; gifts := gifts d;
     members := members d; follows := follows d |}.

Definition set_total_likes (v : Z) (d : Data) : Data :=
  {| d_live_id := d_live_id d; d_date := d_date d; d_session := d_session d;
     d_user_id := d_user_id d; d_nickname := d_nickname d;
     total_viewers := total_viewers d; total_likes := v;
     chat_messages := chat_messages d; gifts := gifts d;
     members := members d; follows := follows d |}.

Definition set_chat_messages (v : list ChatRecord) (d : Data) : Data :=
  {| d_live_id := d_live_id d; d_date := d_date d; d_session := d_session d;
     d_user_id := d_user_id d; d_nickname := d_nickname d;
     total_viewers := total_viewers d; total_likes := total_likes d;
     chat_messages := v; gifts := gifts d;
     members := members d; follows := follows d |}.

Definition set_gifts (v : gmap string loc) (d : Data) : Data :=
  {| d_live_id := d_live_id d; d_date := d_date d; d_session := d_session d;
     d_user_id := d_user_id d; d_nickname := d_nickname d;
     total_viewers := total_viewers d; total_likes := total_likes d;
     chat_messages := chat_messages d; gifts := v;
     members := members d; follows := follows d |}.

Definition set_members (v : Coll) (d : Data) : Data :=
  {| d_live_id := d_live_id d; d_date := d_date d; d_session := d_session d;
     d_user_id := d_user_id d; d_nickname := d_nickname d;
     total_viewers := total_viewers d; total_likes := total_likes d;
     chat_messages := chat_messages d; gifts := gifts d;
     members := v; follows := follows d |}.

Definition set_follows (v : list FollowRecord) (d : Data) : Data :=
  {| d_live_id := d_live_id d; d_date := d_date d; d_session := d_session d;
     d_user_id := d_user_id d; d_nickname := d_nickname d;
     total_viewers := total_viewers d; total_likes := total_likes d;
     chat_messages := chat_messages d; gifts := gifts d;
     members := members d; follows := v |}.

(** ** Observable effects: log lines, frames sent, files written *)

Inductive Place :=
| InChat | InGift | InMember | InLike | InFollow | InViewerCount
| InOnMessage | InSave | InTtwid | InRoomId.

(** What is written to the snapshot file: [data_copy] as [json.dump]
    sees it, the gift dictionaries read through the store. *)
Record Snapshot := {
  snap_live_id : string;
  snap_date : string;
  snap_session : Z;
  snap_total_viewers : Z;
  snap_total_likes : Z;
  snap_chat_messages : list ChatRecord;
  snap_gifts : list (string * option GiftStat);
  snap_members : list string;
  snap_follows : list FollowRecord;
  stat_total_chat_messages : nat;
  stat_total_members : nat;
  stat_total_follows : nat;
  stat_total_gift_types : nat;
  stat_save_time : string
}.

Inductive Effect :=
| LogChat (nick text : string)            (* "💬 nick: text" *)
| LogGift (nick gift_name : string) (n : Z)
| LogEntered (nick : string)              (* "👥 nick 进入直播间" *)
| LogLikes (n : Z)
| LogFollow (nick : string)
| LogSaved (path : string)
| LogError (at_ : Place)                  (* logger.error in an except clause *)
| LogNoRoomId                             (* logger.warning: roomId not found *)
| HttpGet (url : string)                  (* requests.get(url, headers=...) *)
| WsSend (frame : bytes)                  (* ws.send(frame, OPCODE_BINARY) *)
| FileWrite (path : string) (content : Snapshot).

(** [__init__]: the aggregate of a fresh session. *)
Definition init_data (lid date : string) (session : Z) : Data :=
  {| d_live_id := lid; d_date := date; d_session := session;
     d_user_id := ""; d_nickname := "";
     total_viewers := 0; total_likes := 0;
     chat_messages := []; gifts := ∅; members := PySet ∅; follows := [] |}.

Definition init (lid date : string) (session : Z) : Crawler :=
  {| live_id := lid; today := date; session_count := session;
     data := init_data lid date session; store := ∅;
     cache_members := ∅; cache_gifts := ∅;
     is_live := true; room_id_cache := None; ttwid_cache := None |}.

(** ** Handlers *)

(** A method of the crawler: the new [self] and what it emitted. *)
Definition Step := Crawler -> Crawler * list Effect.

Definition and_then (f g : Step) : Step := fun self =>
  let '(self1, out1) := f self in
  let '(self2, out2) := g self1 in
  (self2, out1 ++ out2).

(** [os.path.join(a, b)] on POSIX: an absolute [b] replaces [a]. *)
Definition os_path_join (a b : string) : string :=
  match b with
  | String "/" _ => b
  | _ =>
    if String.eqb a "" then b
    else match List.last (list_ascii_of_string a) "x"%char with
         | "/"%char => a +:+ b
         | _ => a +:+ "/" +:+ b
         end
  end.

(** [os.path.join("data", "live_data")] *)
Definition data_dir : string := os_path_join "data" "live_data".

Section Handlers.
Context (rt : Runtime).

(** [_process_chat_message]; [now] is the reading of [int(time.time())]. *)
Definition _process_chat_message (now : Z) (msg : Message) : Step := fun self =>
  match ChatMessage_parse rt (payload msg) with
  | None => (self, [LogError InChat])
  | Some chat_msg =>
    let user := chat_user chat_msg in
    let message_data :=
      {| chat_timestamp := now;
         chat_user_id := pretty (id user);
         chat_nickname := nick_name user;
         chat_content := content chat_msg;
         chat_type := "chat" |} in
    let d := data self in
    (set_data (set_chat_messages (chat_messages d ++ [message_data]) d) self,
     [LogChat (nick_name user) (content chat_msg)])
  end.

(** Lines 517-522 on one gift dictionary: coerce [senders] to a set when
    it is not one, then the three in-place updates. *)
Definition gift_update (gift_cnt gift_value : Z) (nick : string)
    (gd : GiftStat) : GiftStat :=
  {| gift_count := gift_count gd + gift_cnt;
     total_value := total_value gd + gift_value;
     senders := PySet ({[nick]} ∪ py_set (senders gd)) |}.

Definition new_gift_stat : GiftStat :=
  {| gift_count := 0; total_value := 0; senders := PySet ∅ |}.

(** [_process_gift_message] *)
Definition _process_gift_message (msg : Message) : Step := fun self =>
  match GiftMessage_parse rt (payload msg) with
  | None => (self, [LogError InGift])
  | Some gift_msg =>
    let user := gift_user gift_msg in
    let gift_name := name (gift gift_msg) in
    let gift_cnt := repeat_count gift_msg in
    let gift_value := diamond_count (gift gift_msg) * gift_cnt in
    let self1 :=
      match gifts (data self) !! gift_name with
      | Some _ => self
      | None =>
        let l := fresh (dom (store self)) in
        set_store (<[l := new_gift_stat]> (store self))
          (set_data (set_gifts (<[gift_name := l]> (gifts (data self)))
                       (data self)) self)
      end in
    let self2 :=
      match gifts (data self1) !! gift_name with
      | Some l =>
        set_store (alter (gift_update gift_cnt gift_value (nick_name user)) l
                     (store self1)) self1
      | None => self1
      end in
    (self2, [LogGift (nick_name user) gift_name gift_cnt])
  end.

(** [_process_member_message] *)
Definition _process_member_message (msg : Message) : Step := fun self =>
  match MemberMessage_parse rt (payload msg) with
  | None => (self, [LogError InMember])
  | Some member_msg =>
    let user := member_user member_msg in
    let user_key := pretty (id user) in
    if decide (user_key ∈ cache_members self) then (self, [])
    else
      let d := data self in
      let as_set := py_set (members d) in
      (set_cache_members ({[user_key]} ∪ cache_members self)
         (set_data (set_members (PySet ({[nick_name user]} ∪ as_set)) d) self),
       [LogEntered (nick_name user)])
  end.

(** [_process_like_message] *)
Definition _process_like_message (msg : Message) : Step := fun self =>
  match LikeMessage_parse rt (payload msg) with
  | None => (self, [LogError InLike])
  | Some like_msg =>
    let d := data self in
    (set_data (set_total_likes (total_likes d + count like_msg) d) self,
     if (1 <? count like_msg)%Z then [LogLikes (count like_msg)] else [])
  end.

(** [_process_follow_message] *)
Definition _process_follow_message (now : Z) (msg : Message) : Step := fun self =>
  match SocialMessage_parse rt (payload msg) with
  | None => (self, [LogError InFollow])
  | Some social_msg =>
    let user := social_user social_msg in
    let follow_data :=
      {| follow_timestamp := now;
         follow_user_id := pretty (id user);
         follow_nickname := nick_name user |} in
    let d := data self in
    (set_data (set_follows (follows d ++ [follow_data]) d) self,
     [LogFollow (nick_name user)])
  end.

(** [_process_viewer_count] *)
Definition _process_viewer_count (msg : Message) : Step := fun self =>
  match RoomUserSeqMessage_parse rt (payload msg) with
  | None => (self, [LogError InViewerCount])
  | Some seq_msg =>
    (set_data (set_total_viewers (total_user seq_msg) (data self)) self, [])
  end.

(** [_process_message]: the [if]/[elif] chain on the method tag; a tag
    that matches no branch does nothing. *)
Definition _process_message (now : Z) (msg : Message) : Step :=
  let method := method msg in
  if String.eqb method "WebcastChatMessage" then _process_chat_message now msg
  else if String.eqb method "WebcastGiftMessage" then _process_gift_message msg
  else if String.eqb method "WebcastMemberMessage" then _process_member_message msg
  else if String.eqb method "WebcastLikeMessage" then _process_like_message msg
  else if String.eqb method "WebcastSocialMessage" then _process_follow_message now msg
  else if String.eqb method "WebcastRoomUserSeqMessage" then _process_viewer_count msg
  else fun self => (self, []).

(** [for msg in response.messages_list: self._process_message(msg)];
    [clock i] is the clock reading while the [i]-th sub-message is handled. *)
Fixpoint process_messages (clock : nat -> Z) (msgs : list Message) : Step :=
  match msgs with
  | [] => fun self => (self, [])
  | msg :: rest =>
    and_then (_process_message (clock 0%nat) msg)
             (process_messages (fun i => clock (S i)) rest)
  end.

(** The frame built when [need_ack] holds. *)
Definition ack_frame (package : PushFrame) (response : Response) : PushFrame :=
  {| log_id := log_id package;
     payload_type := "ack";
     frame_payload := list_byte_of_string (internal_ext response) |}.

(** [_on_message].  [WsSend] records the call of [ws.send]; [send_ok]
    tells whether that call returns ([true]) or raises ([false]). *)
Definition _on_message (send_ok : bool) (clock : nat -> Z) (message : bytes)
    : Step := fun self =>
  match PushFrame_parse rt message with
  | None => (self, [LogError InOnMessage])
  | Some package =>
    match gzip_decompress rt (frame_payload package) with
    | None => (self, [LogError InOnMessage])
    | Some compressed_data =>
      match Response_parse rt compressed_data with
      | None => (self, [LogError InOnMessage])
      | Some response =>
        if need_ack response then
          let ack := PushFrame_SerializeToString rt (ack_frame package response) in
          if send_ok then
            let '(self', out) :=
              process_messages clock (messages_list response) self in
            (self', WsSend ack :: out)
          else (self, [WsSend ack; LogError InOnMessage])
        else process_messages clock (messages_list response) self
      end
    end
  end.

(** ** Snapshot writer *)

(** [list(c)] *)
Definition py_list (c : Coll) : list string :=
  match c with PySet s => list_of_set rt s | PyList l => l end.

(** Lines 606-607 on one gift dictionary. *)
Definition senders_to_list (gd : GiftStat) : GiftStat :=
  if is_set (senders gd)
  then {| gift_count := gift_count gd; total_value := total_value gd;
          senders := PyList (py_list (senders gd)) |}
  else gd.

(** [f"{self.live_id}_{self.session_count}_{self.today}.json"] *)
Definition filename (self : Crawler) : string :=
  live_id self +:+ "_" +:+ pretty (session_count self) +:+ "_" +:+
  today self +:+ ".json".

(** [_save_data].  [data_copy = self.data.copy()] is a new top-level
    dictionary holding the same values, so [data_copy["gifts"]] leads to
    the very gift dictionaries of [self.data]: the loop writes them in
    the store.  [data_copy["members"] = ...] rebinds a key of the copy
    only.  [io_ok] tells whether opening and writing the file succeeds. *)
Definition _save_data (save_time : string) (io_ok : bool) : Step := fun self =>
  let data_copy := data self in
  let copy_members := py_list (members data_copy) in
  let store' :=
    foldr (fun entry h => alter senders_to_list (snd entry) h)
          (store self) (map_to_list (gifts data_copy)) in
  let self' := set_store store' self in
  let snapshot :=
    {| snap_live_id := d_live_id data_copy;
       snap_date := d_date data_copy;
       snap_session := d_session data_copy;
       snap_total_viewers := total_viewers data_copy;
       snap_total_likes := total_likes data_copy;
       snap_chat_messages := chat_messages data_copy;
       snap_gifts :=
         (fun entry => (fst entry, store' !! snd entry))
           <$> map_to_list (gifts data_copy);
       snap_members := copy_members;
       snap_follows := follows data_copy;
       stat_total_chat_messages := length (chat_messages data_copy);
       stat_total_members := length copy_members;
       stat_total_follows := length (follows data_copy);
       stat_total_gift_types := size (gifts data_copy);
       stat_save_time := save_time |} in
  let filepath := os_path_join data_dir (filename self) in
  if io_ok
  then (self', [FileWrite filepath snapshot; LogSaved filepath])
  else (self', [LogError InSave]).

(** What can happen to a running crawler, one atomic step at a time. *)
Inductive Op :=
| Inbound (send_ok : bool) (clock : nat -> Z) (message : bytes)
| SubMessage (now : Z) (msg : Message)
| Save (save_time : string) (io_ok : bool).

Definition run_op (op : Op) : Step :=
  match op with
  | Inbound send_ok clock message => _on_message send_ok clock message
  | SubMessage now msg => _process_message now msg
  | Save save_time io_ok => _save_data save_time io_ok
  end.

Fixpoint run (ops : list Op) : Step :=
  match ops with
  | [] => fun self => (self, [])
  | op :: rest => and_then (run_op op) (run rest)
  end.

End Handlers.

(** ** Session ordinal: [_get_next_session_count] *)

Module Text.

Definition underscore : ascii := "_"%char.
Definition backslash : ascii := ascii_of_nat 92.
Definition dquote : ascii := ascii_of_nat 34.

(** [fnmatch] for patterns made of literals, [*] and [?].  Bracket
    expressions are not modelled, so the pattern must hold no '[';
    [?] consumes one byte. *)
Fixpoint fnmatch (pat name : list ascii) : bool :=
  match pat with
  | [] => match name with [] => true | _ :: _ => false end
  | c :: pat' =>
    if Ascii.eqb c "*" then
      (fix star (name : list ascii) : bool :=
         fnmatch pat' name ||
         match name with [] => false | _ :: name' => star name' end) name
    else
      match name with
      | [] => false
      | d :: name' => (Ascii.eqb c "?" || Ascii.eqb c d) && fnmatch pat' name'
      end
  end.

(** [glob] hides dot files unless the pattern starts with a dot. *)
Definition is_hidden (s : list ascii) : bool :=
  match s with c :: _ => Ascii.eqb c "." | [] => false end.

(** [glob.glob(os.path.join(dir, pat))] over the names [listing] of the
    directory; the directory part is the same for every result and
    [os.path.basename] removes it again. *)
Definition glob (pat : string) (listing : list string) : list string :=
  let p := list_ascii_of_string pat in
  filter (fun f : string =>
            let n := list_ascii_of_string f in
            Is_true ((is_hidden p || negb (is_hidden n)) && fnmatch p n))
         listing.

(** [s.split(sep)] for a one-character separator. *)
Fixpoint split (sep : ascii) (s : list ascii) : list (list ascii) :=
  match s with
  | [] => [[]]
  | c :: s' =>
    if Ascii.eqb c sep then [] :: split sep s'
    else match split sep s' with
         | w :: ws => (c :: w) :: ws
         | [] => [[c]]
         end
  end.

Definition is_digit (c : ascii) : bool :=
  (48 <=? nat_of_ascii c)%nat && (nat_of_ascii c <=? 57)%nat.

(** ASCII white space as [int] skips it: tab to carriage return, and the
    space.  (On a text of ASCII characters [int] does not skip the
    separators 28 to 31, which [str.strip] would.) *)
Definition is_space (c : ascii) : bool :=
  let n := nat_of_ascii c in
  ((9 <=? n)%nat && (n <=? 13)%nat) || (n =? 32)%nat.

Fixpoint lstrip (s : list ascii) : list ascii :=
  match s with
  | c :: s' => if is_space c then lstrip s' else s
  | [] => []
  end.

Definition strip (s : list ascii) : list ascii :=
  rev (lstrip (rev (lstrip s))).

(** Value of a digit string read from the left, [None] on a non-digit. *)
Fixpoint digits_value (acc : Z) (s : list ascii) : option Z :=
  match s with
  | [] => Some acc
  | c :: s' =>
    if is_digit c
    then digits_value (10 * acc + Z.of_nat (nat_of_ascii c - 48)) s'
    else None
  end.

Definition unsigned_value (s : list ascii) : option Z :=
  match s with [] => None | _ :: _ => digits_value 0 s end.

(** [int(s)] for a text [s] of ASCII characters: surrounding white
    space, an optional sign, decimal digits; [None] stands for
    [ValueError].  Digit-group underscores cannot occur in a field cut at
    underscores.  (Beyond ASCII [int] also accepts other decimal digits
    and white space, which this function takes for invalid.) *)
Definition py_int (s : list ascii) : option Z :=
  match strip s with
  | c :: ds =>
    if Ascii.eqb c "-" then Z.opp <$> unsigned_value ds
    else if Ascii.eqb c "+" then unsigned_value ds
    else unsigned_value (c :: ds)
  | [] => None
  end.

End Text.

(** [int(os.path.basename(file).split("_")[1])]; [None] stands for the
    [ValueError] or [IndexError] the loop skips. *)
Definition ordinal_field (file : string) : option Z :=
  Text.split Text.underscore (list_ascii_of_string file) !! 1%nat
    ≫= Text.py_int.

(** [_get_next_session_count], given the names found in [data_dir]. *)
Definition _get_next_session_count (listing : list string) (lid : string) : Z :=
  let pattern := lid +:+ "_*_*.json" in
  let files := Text.glob pattern listing in
  let max_count :=
    fold_left (fun max_count file =>
                 match ordinal_field file with
                 | Some count => Z.max max_count count
                 | None => max_count
                 end) files 0 in
  max_count + 1.

(** [__init__] as far as the aggregate goes. *)
Definition new_crawler (listing : list string) (lid date : string) : Crawler :=
  init lid date (_get_next_session_count listing lid).

(** ** Room resolution: the [ttwid] and [room_id] properties *)

Record HttpResponse := {
  text : string;
  cookie_ttwid : option string   (* response.cookies.get('ttwid') *)
}.

(** What [requests.get(url, headers=...)] followed by
    [raise_for_status()] comes to: [None] when either raises.  That the
    request is made is recorded by the effect [HttpGet].  [ms_token] is
    the random token drawn by [generateMsToken()]. *)
Record Network := {
  requests_get : string -> list (string * string) -> option HttpResponse;
  ms_token : string
}.

Definition live_url : string := "https://live.douyin.com/".

Definition user_agent : string :=
  "Mozilla/5.0 (Windows NT 10.0; Win64; x64) AppleWebKit/537.36 (KHTML, like Gecko) Chrome/120.0.0.0 Safari/537.36".

(** Truth value of a cached field: [None] and the empty string are false. *)
Definition truthy (o : option string) : bool :=
  match o with
  | Some s => negb (String.eqb s "")
  | None => false
  end.

(** How an f-string prints an optional string. *)
Definition fmt (o : option string) : string :=
  match o with Some s => s | None => "None" end.

Module Regex.
Import Text.

(** The literal parts of the pattern: the text roomId, a backslash, a
    double quote, a colon, a backslash and a double quote before the
    digits of group 1; a backslash and a double quote after them. *)
Definition before_digits : list ascii :=
  list_ascii_of_string "roomId" ++ [backslash; dquote; ":"%char; backslash; dquote].

Definition after_digits : list ascii := [backslash; dquote].

Fixpoint strip_prefix (p s : list ascii) : option (list ascii) :=
  match p with
  | [] => Some s
  | c :: p' =>
    match s with
    | d :: s' => if Ascii.eqb c d then strip_prefix p' s' else None
    | [] => None
    end
  end.

(** The longest run of digits 0-9 at the head, and what follows it.
    (The class of digits of [re] also holds the decimal digits beyond
    0-9; [digits_are_ascii] below tells the pages on which this makes no
    difference.) *)
Fixpoint span_digits (s : list ascii) : list ascii * list ascii :=
  match s with
  | c :: s' =>
    if is_digit c
    then let '(ds, rest) := span_digits s' in (c :: ds, rest)
    else ([], s)
  | [] => ([], [])
  end.

(** A match starting at the head of [s]: group 1.  The greedy run of
    digits is the only candidate, since a shorter run is followed by a
    digit and not by the backslash. *)
Definition match_here (s : list ascii) : option (list ascii) :=
  match strip_prefix before_digits s with
  | None => None
  | Some rest =>
    let '(ds, rest') := span_digits rest in
    match ds with
    | [] => None
    | _ :: _ =>
      match strip_prefix after_digits rest' with
      | Some _ => Some ds
      | None => None
      end
    end
  end.

(** [re.search(...)] then [group(1)]: the leftmost match. *)
Fixpoint search (s : list ascii) : option (list ascii) :=
  match match_here s with
  | Some ds => Some ds
  | None => match s with [] => None | _ :: s' => search s' end
  end.

Definition search_room_id (page : string) : option string :=
  string_of_list_ascii <$> search (list_ascii_of_string page).

End Regex.

Section Resolver.
Context (net : Network).

(** The [ttwid] property. *)
Definition ttwid (self : Crawler) : option string * Crawler * list Effect :=
  if truthy (ttwid_cache self) then (ttwid_cache self, self, [])
  else
    match requests_get net live_url [("User-Agent", user_agent)] with
    | None => (None, self, [HttpGet live_url; LogError InTtwid])
    | Some response =>
      let self' := set_ttwid_cache (cookie_ttwid response) self in
      (ttwid_cache self', self', [HttpGet live_url])
    end.

(** The headers of the page request; [tw] is what [self.ttwid] gave. *)
Definition room_headers (tw : option string) : list (string * string) :=
  [("User-Agent", user_agent);
   ("cookie", "ttwid=" +:+ fmt tw +:+ "&msToken=" +:+ ms_token net +:+
              "; __ac_nonce=0123407cc00a9e438deb4")].

(** The [room_id] property.  The [return] sits in the [else] branch of
    the [try], so the [except] branch falls off the end of the function
    and yields [None]. *)
Definition room_id (self : Crawler) : option string * Crawler * list Effect :=
  if truthy (room_id_cache self) then (room_id_cache self, self, [])
  else
    let url := live_url +:+ live_id self in
    let '(tw, self1, out1) := ttwid self in
    let headers := room_headers tw in
    match requests_get net url headers with
    | None => (None, self1, out1 ++ [HttpGet url; LogError InRoomId])
    | Some response =>
      match Regex.search_room_id (text response) with
      | None =>
        let self2 := set_is_live false (set_room_id_cache (Some (live_id self1)) self1) in
        (room_id_cache self2, self2, out1 ++ [HttpGet url; LogNoRoomId])
      | Some rid =>
        let self2 := set_room_id_cache (Some rid) self1 in
        (room_id_cache self2, self2, out1 ++ [HttpGet url])
      end
    end.

(** What the page request of [room_id] comes back with. *)
Definition room_page (self : Crawler) : option HttpResponse :=
  requests_get net (live_url +:+ live_id self)
    (room_headers (fst (fst (ttwid self)))).

End Resolver.

(** A network on which every request raises. *)
Definition unreachable : Network :=
  {| requests_get := fun _ _ => None; ms_token := "token" |}.

(** A network that serves a cookie and a page without any room id. *)
Definition offline_page : Network :=
  {| requests_get := fun _ _ =>
       Some {| text := "<html>offline</html>"; cookie_ttwid := Some "tw" |};
     ms_token := "token" |}.

Definition page_live : string :=
  string_of_list_ascii
    (list_ascii_of_string "{x:1,roomId" ++
     [Text.backslash; Text.dquote; ":"%char; Text.backslash; Text.dquote] ++
     list_ascii_of_string "7318296" ++ [Text.backslash; Text.dquote] ++
     list_ascii_of_string ",status:2}").

(** ** Initial connection: [_connectWebSocket] *)

Module Connect.

(** What one pass through the body of the [while] meets. *)
Record Attempt := {
  running : bool;               (* [self.is_running] when the loop tests it *)
  signature : option string;    (* the result of [generateSignature] *)
  raises : bool                 (* does the rest of the [try] block raise;
                                   otherwise [run_forever] returns *)
}.

Inductive Event :=
| Try (n : nat)                 (* the body of the loop is entered *)
| LogSignatureFailed
| RunForever                    (* [run_forever] returned, then [break] *)
| LogAttemptFailed (retry_count : Z)
| Sleep (seconds : Z)
| LogGiveUp.

Definition max_retries : Z := 3.
Definition retry_delay : Z := 3.

(** [not signature] *)
Definition falsy (o : option string) : bool :=
  match o with
  | Some s => String.eqb s ""
  | None => true
  end.

(** The [while] loop from pass [n] on, with the current [retry_count];
    the result is the final [retry_count] and the events in order. *)
Equations? connect_loop (env : nat -> Attempt) (n : nat) (retry_count : Z)
    : Z * list Event by wf (Z.to_nat (max_retries - retry_count)) lt :=
connect_loop env n retry_count :=
  if running (env n) && (retry_count <? max_retries)%Z then
    if falsy (signature (env n)) then
      (retry_count, [Try n; LogSignatureFailed])          (* return *)
    else if raises (env n) then
      match decide (retry_count + 1 < max_retries)%Z with
      | left Hlt =>
        let '(r, events) := connect_loop env (S n) (retry_count + 1) in
        (r, Try n :: LogAttemptFailed (retry_count + 1)
              :: Sleep retry_delay :: events)
      | right _ =>
        (retry_count + 1,
         [Try n; LogAttemptFailed (retry_count + 1); LogGiveUp])  (* break *)
      end
    else (retry_count, [Try n; RunForever])                (* break *)
  else (retry_count, []).
Proof.
  unfold max_retries in *. lia.
Qed.

(** [_connectWebSocket] *)
Definition _connectWebSocket (env : nat -> Attempt) : Z * list Event :=
  connect_loop env 0%nat 0.

(** The passes made: the [n] of every [Try n]. *)
Definition attempts (events : list Event) : list nat :=
  omap (fun e => match e with Try n => Some n | _ => None end) events.


End Connect.

(** The passes a connection loop would meet when only the first signature
    is missing: the crawler keeps running and every later pass would get
    its signature and connect. *)
Definition first_signature_missing (n : nat) : Connect.Attempt :=
  {| Connect.running := true;
     Connect.signature := match n with O => None | S _ => Some "sig" end;
     Connect.raises := false |}.

(** Every pass has its signature and raises. *)
Definition always_raises (n : nat) : Connect.Attempt :=
  {| Connect.running := true;
     Connect.signature := Some "sig";
     Connect.raises := true |}.

(** ** A small concrete runtime

    A toy wire format to run the handlers on: fields are separated by the
    zero byte and a number is one byte.  It stands in for betterproto and
    gzip in the examples below. *)

Module Demo.

Definition num (b : Byte.byte) : Z := Z.of_N (Byte.to_N b).

Definition str (bs : bytes) : string := string_of_list_byte bs.

Fixpoint fields (sep : Byte.byte) (bs : bytes) : list bytes :=
  match bs with
  | [] => [[]]
  | b :: bs' =>
    if Byte.eqb b sep then [] :: fields sep bs'
    else match fields sep bs' with
         | w :: ws => (b :: w) :: ws
         | [] => [[b]]
         end
  end.

Definition parse_user (i : Byte.byte) (nick : bytes) : User :=
  {| id := num i; nick_name := str nick |}.

Definition parse_chat (bs : bytes) : option ChatMessage :=
  match fields Byte.x00 bs with
  | [[i]; nick; body] =>
    Some {| chat_user := parse_user i nick; content := str body |}
  | _ => None
  end.

Definition parse_gift (bs : bytes) : option GiftMessage :=
  match fields Byte.x00 bs with
  | [[i]; nick; gname; [d]; [r]] =>
    Some {| gift_user := parse_user i nick;
            gift := {| name := str gname; diamond_count := num d |};
            repeat_count := num r |}
  | _ => None
  end.

Definition parse_member (bs : bytes) : option MemberMessage :=
  match fields Byte.x00 bs with
  | [[i]; nick] => Some {| member_user := parse_user i nick |}
  | _ => None
  end.

Definition parse_like (bs : bytes) : option LikeMessage :=
  match bs with [c] => Some {| count := num c |} | _ => None end.

Definition parse_social (bs : bytes) : option SocialMessage :=
  match fields Byte.x00 bs with
  | [[i]; nick] => Some {| social_user := parse_user i nick |}
  | _ => None
  end.

Definition parse_seq (bs : bytes) : option RoomUserSeqMessage :=
  match bs with [t] => Some {| total_user := num t |} | _ => None end.

Definition method_of (tag : Byte.byte) : string :=
  match tag with
  | Byte.x01 => "WebcastChatMessage"
  | Byte.x02 => "WebcastGiftMessage"
  | Byte.x03 => "WebcastMemberMessage"
  | Byte.x04 => "WebcastLikeMessage"
  | Byte.x05 => "WebcastSocialMessage"
  | Byte.x06 => "WebcastRoomUserSeqMessage"
  | _ => "WebcastRoomStatsMessage"
  end.

Definition parse_message (bs : bytes) : option Message :=
  match bs with
  | tag :: body => Some {| method := method_of tag; payload := body |}
  | [] => None
  end.

(** A batch: the ack flag, the extension string, then the sub-messages,
    separated by the byte 255. *)
Definition parse_response (bs : bytes) : option Response :=
  match fields Byte.xff bs with
  | [flag] :: ext :: subs =>
    match mapM parse_message subs with
    | Some msgs =>
      Some {| messages_list := msgs;
              need_ack := negb (Byte.eqb flag Byte.x00);
              internal_ext := str ext |}
    | None => None
    end
  | _ => None
  end.

Definition parse_frame (bs : bytes) : option PushFrame :=
  match bs with
  | i :: body =>
    Some {| log_id := num i; payload_type := "msg"; frame_payload := body |}
  | [] => None
  end.

Definition serialize_frame (f : PushFrame) : bytes :=
  list_byte_of_string (pretty (log_id f)) ++ [Byte.x00] ++
  list_byte_of_string (payload_type f) ++ [Byte.x00] ++ frame_payload f.

(** The toy compressed form is the gzip magic byte before the data. *)
Definition decompress (bs : bytes) : option bytes :=
  match bs with
  | Byte.x1f :: body => Some body
  | _ => None
  end.

Definition runtime : Runtime :=
  {| PushFrame_parse := parse_frame;
     PushFrame_SerializeToString := serialize_frame;
     gzip_decompress := decompress;
     Response_parse := parse_response;
     ChatMessage_parse := parse_chat;
     GiftMessage_parse := parse_gift;
     MemberMessage_parse := parse_member;
     LikeMessage_parse := parse_like;
     SocialMessage_parse := parse_social;
     RoomUserSeqMessage_parse := parse_seq;
     list_of_set := elements;
     list_of_set_perm := fun X => reflexivity (elements X) |}.

Definition ascii_bytes (s : string) : bytes := list_byte_of_string s.

(** A gift sub-message: user 7 "ann" sends 3 of "rose" worth 5 each. *)
Definition gift_rose_ann : Message :=
  {| method := "WebcastGiftMessage";
     payload := [Byte.x07; Byte.x00] ++ ascii_bytes "ann" ++ [Byte.x00] ++
                ascii_bytes "rose" ++ [Byte.x00; Byte.x05; Byte.x00; Byte.x03] |}.

(** user 8 "bob" sends 2 of "rose". *)
Definition gift_rose_bob : Message :=
  {| method := "WebcastGiftMessage";
     payload := [Byte.x08; Byte.x00] ++ ascii_bytes "bob" ++ [Byte.x00] ++
                ascii_bytes "rose" ++ [Byte.x00; Byte.x05; Byte.x00; Byte.x02] |}.

(** A chat sub-message whose payload does not decode. *)
Definition chat_broken : Message :=
  {| method := "WebcastChatMessage"; payload := [Byte.x07] |}.

Definition chat_hello : Message :=
  {| method := "WebcastChatMessage";
     payload := [Byte.x07; Byte.x00] ++ ascii_bytes "ann" ++ [Byte.x00] ++
                ascii_bytes "hello" |}.

Definition member_ann : Message :=
  {| method := "WebcastMemberMessage";
     payload := [Byte.x07; Byte.x00] ++ ascii_bytes "ann" |}.

(** Another user, 9, under the same nickname "ann". *)
Definition member_ann_twin : Message :=
  {| method := "WebcastMemberMessage";
     payload := [Byte.x09; Byte.x00] ++ ascii_bytes "ann" |}.

Definition viewers (n : Byte.byte) : Message :=
  {| method := "WebcastRoomUserSeqMessage"; payload := [n] |}.

Definition unknown_tag : Message :=
  {| method := "WebcastRoomStatsMessage"; payload := [] |}.

(** An inbound frame: log id 42, compressed batch asking for an ack, with
    extension "ext", carrying [chat_hello]. *)
Definition inbound_chat : bytes :=
  [Byte.x2a; Byte.x1f; Byte.x01; Byte.xff] ++ ascii_bytes "ext" ++
  [Byte.xff; Byte.x01] ++ payload chat_hello.

(** Its envelope, and the batch inside. *)
Definition inbound_frame : PushFrame :=
  {| log_id := 42; payload_type := "msg";
     frame_payload :=
       [Byte.x1f; Byte.x01; Byte.xff] ++ ascii_bytes "ext" ++
       [Byte.xff; Byte.x01] ++ payload chat_hello |}.

Definition inbound_batch : Response :=
  {| messages_list := [chat_hello]; need_ack := true; internal_ext := "ext" |}.

Definition clock0 : nat -> Z := fun _ => 1700000000.

Definition fresh_session : Crawler := init "7318296" "2024-05-01" 1.

End Demo.

(** ** Observations used in the statements *)


(** The frames passed to [ws.send], in order. *)
Definition sent (out : list Effect) : list bytes :=
  omap (fun e => match e with WsSend frame => Some frame | _ => None end) out.

(** A sub-message that is a well-formed event of a given kind. *)
Definition member_event (rt : Runtime) (msg : Message) (ev : MemberMessage) : Prop :=
  method msg = "WebcastMemberMessage" /\
  MemberMessage_parse rt (payload msg) = Some ev.

Definition viewer_event (rt : Runtime) (msg : Message) (ev : RoomUserSeqMessage) : Prop :=
  method msg = "WebcastRoomUserSeqMessage" /\
  RoomUserSeqMessage_parse rt (payload msg) = Some ev.

Definition gift_event (rt : Runtime) (msg : Message) (ev : GiftMessage) : Prop :=
  method msg = "WebcastGiftMessage" /\
  GiftMessage_parse rt (payload msg) = Some ev.

(** The branch of the dispatcher a method tag selects, if any. *)
Definition place_of (msg : Message) : option Place :=
  let method := method msg in
  if String.eqb method "WebcastChatMessage" then Some InChat
  else if String.eqb method "WebcastGiftMessage" then Some InGift
  else if String.eqb method "WebcastMemberMessage" then Some InMember
  else if String.eqb method "WebcastLikeMessage" then Some InLike
  else if String.eqb method "WebcastSocialMessage" then Some InFollow
  else if String.eqb method "WebcastRoomUserSeqMessage" then Some InViewerCount
  else None.

(** The typed decoder picked for the sub-message raises. *)
Definition decode_fails (rt : Runtime) (msg : Message) : Prop :=
  match place_of msg with
  | Some InChat => ChatMessage_parse rt (payload msg) = None
  | Some InGift => GiftMessage_parse rt (payload msg) = None
  | Some InMember => MemberMessage_parse rt (payload msg) = None
  | Some InLike => LikeMessage_parse rt (payload msg) = None
  | Some InFollow => SocialMessage_parse rt (payload msg) = None
  | Some InViewerCount => RoomUserSeqMessage_parse rt (payload msg) = None
  | _ => False
  end.

(** What the dispatcher logs for a sub-message it skips. *)
Definition skip_log (msg : Message) : list Effect :=
  match place_of msg with
  | Some p => [LogError p]
  | None => []
  end.

(** The gift dictionary a name leads to. *)
Definition gift_stat (self : Crawler) (gift_name : string) : option GiftStat :=
  match gifts (data self) !! gift_name with
  | Some l => store self !! l
  | None => None
  end.

(** A gift dictionary with its sender collection read as a set: count,
    total value, senders. *)
Definition stat_view (gd : GiftStat) : Z * Z * gset string :=
  (gift_count gd, total_value gd, py_set (senders gd)).

Definition gift_view (self : Crawler) (gift_name : string)
    : option (Z * Z * gset string) :=
  stat_view <$> gift_stat self gift_name.

(** The Gift event a sub-message carries, if it is one and decodes. *)
Definition gift_of (rt : Runtime) (msg : Message) : option GiftMessage :=
  if String.eqb (method msg) "WebcastGiftMessage"
  then GiftMessage_parse rt (payload msg)
  else None.

(** The sub-messages a step hands to the dispatcher. *)
Definition dispatched (rt : Runtime) (op : Op) : list Message :=
  match op with
  | SubMessage _ msg => [msg]
  | Save _ _ => []
  | Inbound send_ok _ message =>
    match PushFrame_parse rt message with
    | Some package =>
      match gzip_decompress rt (frame_payload package) with
      | Some raw =>
        match Response_parse rt raw with
        | Some response =>
          if need_ack response && negb send_ok then []
          else messages_list response
        | None => []
        end
      | None => []
      end
    | None => []
    end
  end.

Definition named (gift_name : string) (evs : list GiftMessage) : list GiftMessage :=
  filter (fun ev => name (gift ev) = gift_name) evs.

(** The Gift events for one gift name met along a run, in order. *)
Definition gifts_named (rt : Runtime) (gift_name : string) (ops : list Op)
    : list GiftMessage :=
  named gift_name (omap (gift_of rt) (ops ≫= dispatched rt)).

Definition Zsum (l : list Z) : Z := foldr Z.add 0 l.

(** What the claim expects of a GiftStat after the events [evs]. *)
Definition totals (evs : list GiftMessage) : Z * Z * gset string :=
  (Zsum (repeat_count <$> evs),
   Zsum ((fun ev => diamond_count (gift ev) * repeat_count ev) <$> evs),
   list_to_set ((fun ev => nick_name (gift_user ev)) <$> evs)).

(** [applyGift] on the view of one gift: an absent entry starts at zero. *)
Definition add_gift (ev : GiftMessage) (v : option (Z * Z * gset string))
    : option (Z * Z * gset string) :=
  let '(c, t, s) := default (0, 0, ∅) v in
  Some (c + repeat_count ev,
        t + diamond_count (gift ev) * repeat_count ev,
        {[nick_name (gift_user ev)]} ∪ s).

Definition absorb (gift_name : string) (evs : list GiftMessage)
    (v : option (Z * Z * gset string)) : option (Z * Z * gset string) :=
  foldl (fun v ev => add_gift ev v) v (named gift_name evs).

(** References are allocated and no two gift names share a dictionary. *)
Definition wf (self : Crawler) : Prop :=
  (forall n l, gifts (data self) !! n = Some l -> is_Some (store self !! l))
  /\ (forall n1 n2 l,
        gifts (data self) !! n1 = Some l ->
        gifts (data self) !! n2 = Some l -> n1 = n2).

(** ** Invariants and proof tools *)

(** A property of the crawler that a step keeps. *)
Definition preserves (P : Crawler -> Prop) (f : Step) : Prop :=
  forall self, P self -> P (fst (f self)).

(** The members collection is a set no larger than the dedup set. *)
Definition members_bounded (self : Crawler) : Prop :=
  exists s, members (data self) = PySet s /\ (size s <= size (cache_members self))%nat.

(** Two crawlers with the same gift table and the same store. *)
Definition same_gifts (self self' : Crawler) : Prop :=
  gifts (data self') = gifts (data self) /\ store self' = store self.

(** Unfolding one handler and splitting on the outcome of its parser. *)
Ltac handler :=
  unfold _process_chat_message, _process_gift_message,
    _process_member_message, _process_like_message,
    _process_follow_message, _process_viewer_count, _save_data;
  repeat case_match; simpl; auto.

(** ** Observations for the other event kinds *)

Definition chat_of (rt : Runtime) (msg : Message) : option ChatMessage :=
  if String.eqb (method msg) "WebcastChatMessage"
  then ChatMessage_parse rt (payload msg)
  else None.

Definition member_of (rt : Runtime) (msg : Message) : option MemberMessage :=
  if String.eqb (method msg) "WebcastMemberMessage"
  then MemberMessage_parse rt (payload msg)
  else None.

Definition like_of (rt : Runtime) (msg : Message) : option LikeMessage :=
  if String.eqb (method msg) "WebcastLikeMessage"
  then LikeMessage_parse rt (payload msg)
  else None.

Definition follow_of (rt : Runtime) (msg : Message) : option SocialMessage :=
  if String.eqb (method msg) "WebcastSocialMessage"
  then SocialMessage_parse rt (payload msg)
  else None.

(** All the sub-messages a run hands to the dispatcher, in order. *)
Definition messages_of (rt : Runtime) (ops : list Op) : list Message :=
  ops ≫= dispatched rt.

(** A chat record without its timestamp, and the same read off an event. *)
Definition chat_key (r : ChatRecord) : string * string * string * string :=
  (chat_user_id r, chat_nickname r, chat_content r, chat_type r).

Definition chat_event_key (ev : ChatMessage) : string * string * string * string :=
  (pretty (id (chat_user ev)), nick_name (chat_user ev), content ev, "chat").

Definition follow_key (r : FollowRecord) : string * string :=
  (follow_user_id r, follow_nickname r).

Definition follow_event_key (ev : SocialMessage) : string * string :=
  (pretty (id (social_user ev)), nick_name (social_user ev)).

(** The files written, in order. *)
Definition written (out : list Effect) : list (string * Snapshot) :=
  omap (fun e => match e with
                 | FileWrite path content => Some (path, content)
                 | _ => None
                 end) out.

(** A snapshot with another save time. *)
Definition saved_at (t : string) (snap : Snapshot) : Snapshot :=
  {| snap_live_id := snap_live_id snap;
     snap_date := snap_date snap;
     snap_session := snap_session snap;
     snap_total_viewers := snap_total_viewers snap;
     snap_total_likes := snap_total_likes snap;
     snap_chat_messages := snap_chat_messages snap;
     snap_gifts := snap_gifts snap;
     snap_members := snap_members snap;
     snap_follows := snap_follows snap;
     stat_total_chat_messages := stat_total_chat_messages snap;
     stat_total_members := stat_total_members snap;
     stat_total_follows := stat_total_follows snap;
     stat_total_gift_types := stat_total_gift_types snap;
     stat_save_time := t |}.

(** The addresses requested with [requests.get], in order. *)
Definition requests (out : list Effect) : list string :=
  omap (fun e => match e with HttpGet url => Some url | _ => None end) out.

(** The envelope and the batch an inbound message decodes to, when the
    three decoding stages of [_on_message] all succeed. *)
Definition decoded (rt : Runtime) (message : bytes) : option (PushFrame * Response) :=
  match PushFrame_parse rt message with
  | Some package =>
    match gzip_decompress rt (frame_payload package) with
    | Some raw =>
      match Response_parse rt raw with
      | Some response => Some (package, response)
      | None => None
      end
    | None => None
    end
  | None => None
  end.

(** Case analysis on the tag of a sub-message. *)
Ltac by_method msg :=
  repeat match goal with
         | |- context [String.eqb (method msg) ?tag] =>
           destruct (String.eqb_spec (method msg) tag)
         end;
  try congruence.

(** The snapshot writes of a run that reach the disk. *)
Definition reaches_disk (op : Op) : bool :=
  match op with Save _ io_ok => io_ok | _ => false end.

Definition successful_saves (ops : list Op) : nat :=
  length (List.filter reaches_disk ops).

(** The path every snapshot of the session is written to. *)
Definition session_path (self : Crawler) : string :=
  os_path_join data_dir (filename self).

(** ** Session files *)

(** The name under which session [k] of room [lid], started on [date],
    is saved. *)
Definition session_file (lid : string) (k : Z) (date : string) : string :=
  filename (init lid date k).

Record SessionId := { of_room : string; ordinal : Z; on_date : string }.

Definition file_of (f : SessionId) : string :=
  session_file (of_room f) (ordinal f) (on_date f).

Definition no_underscore (s : string) : Prop :=
  Text.underscore ∉ list_ascii_of_string s.

(** No character that [glob] reads as more than itself: none of the
    wildcards of [fnmatch], and no path separator, which would move the
    search to another directory. *)
Definition literal (c : ascii) : Prop :=
  c <> "*"%char /\ c <> "?"%char /\ c <> "["%char /\ c <> "/"%char.

Definition plain (s : string) : Prop :=
  Forall literal (list_ascii_of_string s).

(** A file name of ASCII characters, no longer than a file system lets
    a name be.  On the fields of such a name [Text.py_int] is [int]:
    beyond ASCII [int] also reads other decimal digits and skips other
    white space, and it gives up on more than 4300 digits. *)
Definition ascii_name (f : string) : Prop :=
  Forall (fun c => (nat_of_ascii c < 128)%nat) (list_ascii_of_string f)
  /\ (String.length f <= 255)%nat.

(** The largest of the ordinals of the sessions of [lid], 0 when there
    is none. *)
Definition max_ordinal (lid : string) (sessions : list SessionId) : Z :=
  foldr Z.max 0 (ordinal <$> filter (fun f => of_room f = lid) sessions).

(** A directory with two sessions of one room and one of another. *)
Definition two_sessions : list SessionId :=
  [{| of_room := "7318296"; ordinal := 1; on_date := "2024-05-01" |};
   {| of_room := "7318296"; ordinal := 2; on_date := "2024-05-02" |};
   {| of_room := "731"; ordinal := 9; on_date := "2024-05-02" |}].

(** Settling a decidable statement about concrete data by evaluation. *)
Ltac by_evaluation :=
  match goal with
  | |- ?P => apply (bool_decide_unpack P); vm_compute; exact I
  end.

(** [re.search] works on code points and its class of digits also holds
    the decimal digits beyond 0-9, which UTF-8 writes with bytes from 128
    on, where [Regex.search] knows the digits 0-9 only.  The two find the
    same match in a page where no such byte stands right after the
    marker or after the digits 0-9 that follow it. *)
Fixpoint digits_are_ascii (page : list ascii) : bool :=
  match Regex.strip_prefix Regex.before_digits page with
  | Some rest =>
    match snd (Regex.span_digits rest) with
    | c :: _ => (nat_of_ascii c <? 128)%nat
    | [] => true
    end
  | None => true
  end
  && match page with [] => true | _ :: page' => digits_are_ascii page' end.

(** A network that serves a cookie and a page of a live room. *)
Definition live_page : Network :=
  {| requests_get := fun _ _ =>
       Some {| text := page_live; cookie_ttwid := Some "tw" |};
     ms_token := "token" |}.

(** ** The socket address and what is signed: [_generate_ws_url],
    [generateSignature] *)

Module Sign.

(** The address with the two readings of [self.room_id] put in. *)
Definition ws_url (room1 room2 : option string) : string :=
  "wss://webcast5-ws-web-hl.douyin.com/webcast/im/push/v2/?" +:+
  "aid=6383&live_id=1&device_platform=web&room_id=" +:+ fmt room1 +:+
  "&support_wrds=1&version_code=180800&webcast_sdk_version=1.0.14" +:+
  "&update_version_code=1.0.14&compress=gzip&internal_ext=" +:+
  "internal_src:dim|wss_push_room_id:" +:+ fmt room2 +:+ "|wss_push_did" +:+
  ":7319483754668557238|fetch_time:1721106114633|seq:1|" +:+
  "wss_info:0-1721106114633-0-0&cursor=d-1_u-1_h-1_t-1721106114633" +:+
  "&host=https://live.douyin.com&im_path=/webcast/im/fetch/&user_unique_id=" +:+
  "&identity=audience&need_persist_msg_count=15&heartbeatDuration=0".

(** [_generate_ws_url]: the property [room_id] is read twice. *)
Definition _generate_ws_url (net : Network) (self : Crawler)
    : string * Crawler * list Effect :=
  let '(room1, self1, out1) := room_id net self in
  let '(room2, self2, out2) := room_id net self1 in
  (ws_url room1 room2, self2, out1 ++ out2).

(** The text before the first [c]. *)
Fixpoint before (c : ascii) (s : list ascii) : list ascii :=
  match s with
  | [] => []
  | d :: s' => if Ascii.eqb d c then [] else d :: before c s'
  end.

(** The text after the first [c], empty when there is none. *)
Fixpoint after (c : ascii) (s : list ascii) : list ascii :=
  match s with
  | [] => []
  | d :: s' => if Ascii.eqb d c then s' else after c s'
  end.

(** The characters [urlsplit] removes from an address before it splits
    it: tab, line feed and carriage return. *)
Definition unsafe (c : ascii) : bool :=
  Ascii.eqb c "009" || Ascii.eqb c "010" || Ascii.eqb c "013".

(** [urllib.parse.urlparse(wss).query] for an address that, as [ws_url]
    does, starts with its scheme and names a host without brackets: the
    unsafe characters are removed, the fragment is cut off at the first
    '#', the query starts after the first '?' of what is left. *)
Definition url_query (wss : list ascii) : list ascii :=
  after "?" (before "#" (List.filter (fun c => negb (unsafe c)) wss)).

(** [i.split('=')[0]] and [i.split("=")[-1]] for an [i] holding '='. *)
Definition key_value (i : list ascii) : option (string * string) :=
  if bool_decide ("="%char ∈ i)
  then
    let pieces := Text.split "=" i in
    Some (string_of_list_ascii (List.hd [] pieces),
          string_of_list_ascii (List.last pieces []))
  else None.

(** The dictionary comprehension: a later parameter replaces an earlier
    one of the same name. *)
Definition wss_maps (wss_params : list (list ascii)) : gmap string string :=
  foldl (fun m i =>
           match key_value i with
           | Some (k, v) => <[k := v]> m
           | None => m
           end) ∅ wss_params.

Definition params : list string :=
  ["live_id"; "aid"; "version_code"; "webcast_sdk_version";
   "room_id"; "sub_room_id"; "sub_channel_id"; "did_rule";
   "user_unique_id"; "device_platform"; "device_type"; "ac";
   "identity"].

(** [param]: the text whose MD5 digest is signed. *)
Definition canonical_param (wss : string) : string :=
  let maps := wss_maps (Text.split "&" (url_query (list_ascii_of_string wss))) in
  String.concat ","
    (map (fun i => i +:+ "=" +:+ default "" (maps !! i)) params).

(** What signing needs from outside: MD5, the JavaScript runtime (absent
    when neither package is installed), the script file, and the call of
    [get_sign], which may raise ([None]) or return any value. *)
Record SignEnv := {
  md5_hexdigest : string -> string;
  js_runtime : bool;
  script_exists : bool;
  get_sign : string -> option (option string)
}.

(** [generateSignature]: [None] when the runtime or the script is missing
    or anything raises. *)
Definition generateSignature (env : SignEnv) (wss : string) : option string :=
  let md5_param := md5_hexdigest env (canonical_param wss) in
  if negb (js_runtime env) then None
  else if negb (script_exists env) then None
  else match get_sign env md5_param with
       | Some signature => signature
       | None => None
       end.

(** A character that is none of the separators of a query string and
    that [urlsplit] keeps. *)
Definition inert (c : ascii) : Prop :=
  c <> "&"%char /\ c <> "="%char /\ c <> "#"%char /\ c <> "?"%char
  /\ unsafe c = false.

End Sign.

Module SignSpec.
Import Sign.

(** [sep.join(ws)] on character lists. *)
Fixpoint join (sep : ascii) (ws : list (list ascii)) : list ascii :=
  match ws with
  | [] => []
  | [w] => w
  | w :: ws' => w ++ sep :: join sep ws'
  end.

(** The parameters of the query of [ws_url], with the two room ids. *)
Definition segments (x1 x2 : string) : list (list ascii) :=
  [list_ascii_of_string "aid=6383";
   list_ascii_of_string "live_id=1";
   list_ascii_of_string "device_platform=web";
   list_ascii_of_string "room_id=" ++ list_ascii_of_string x1;
   list_ascii_of_string "support_wrds=1";
   list_ascii_of_string "version_code=180800";
   list_ascii_of_string "webcast_sdk_version=1.0.14";
   list_ascii_of_string "update_version_code=1.0.14";
   list_ascii_of_string "compress=gzip";
   list_ascii_of_string "internal_ext=internal_src:dim|wss_push_room_id:" ++
     list_ascii_of_string x2 ++
     list_ascii_of_string "|wss_push_did:7319483754668557238|fetch_time:1721106114633|seq:1|wss_info:0-1721106114633-0-0";
   list_ascii_of_string "cursor=d-1_u-1_h-1_t-1721106114633";
   list_ascii_of_string "host=https://live.douyin.com";
   list_ascii_of_string "im_path=/webcast/im/fetch/";
   list_ascii_of_string "user_unique_id=";
   list_ascii_of_string "identity=audience";
   list_ascii_of_string "need_persist_msg_count=15";
   list_ascii_of_string "heartbeatDuration=0"].

(** The text that is signed for a room id. *)
Definition signed_text (x1 : string) : string :=
  "live_id=1,aid=6383,version_code=180800,webcast_sdk_version=1.0.14,room_id=" +:+
  x1 +:+
  ",sub_room_id=,sub_channel_id=,did_rule=,user_unique_id=,device_platform=web,device_type=,ac=,identity=audience".

(** One step of the dictionary comprehension. *)
Definition put (m : gmap string string) (o : option (string * string)) :=
  match o with Some (k, v) => <[k := v]> m | None => m end.

End SignSpec.

(** An installation without JavaScript runtime. *)
Definition no_runtime : Sign.SignEnv :=
  {| Sign.md5_hexdigest := fun s => s;
     Sign.js_runtime := false;
     Sign.script_exists := true;
     Sign.get_sign := fun s => Some (Some s) |}.


(** ** Helpers of the module: [generateMsToken], [get_resource_path],
    [get_js_runtime] *)

Module Helpers.

Definition base_str : string :=
  "ABCDEFGHIJKLMNOPQRSTUVWXYZabcdefghijklmnopqrstuvwxyz0123456789=".

(** The loop of [generateMsToken]; [draws] holds what the calls of
    [random.randint(0, len(base_str) - 1)] return, one per round.
    [None] stands for the [IndexError] of an index outside [base_str]. *)
Fixpoint token_loop (draws : list nat) (random_str : string) : option string :=
  match draws with
  | [] => Some random_str
  | k :: rest =>
    match String.get k base_str with
    | Some c => token_loop rest (random_str +:+ String c "")
    | None => None
    end
  end.

(** [generateMsToken(length)] with [length = len(draws)]. *)
Definition generateMsToken (draws : list nat) : option string :=
  token_loop draws "".

(** [os.path.join(a, b)] on POSIX. *)
Definition path_join (a b : string) : string := os_path_join a b.

(** What [get_resource_path] asks of the system. *)
Record FileSystem := {
  meipass : option string;          (* sys._MEIPASS, when frozen *)
  abspath : string -> string;       (* os.path.abspath *)
  module_dir : string;              (* dirname(abspath(__file__)) *)
  getcwd : string;
  path_exists : string -> bool
}.

Definition base_path (fs : FileSystem) : string :=
  match meipass fs with
  | Some p => p
  | None => abspath fs "."
  end.

Definition possible_paths (fs : FileSystem) (relative_path : string) : list string :=
  [path_join (base_path fs) relative_path;
   path_join (module_dir fs) relative_path;
   path_join (getcwd fs) relative_path;
   abspath fs relative_path].

(** [get_resource_path] *)
Definition get_resource_path (fs : FileSystem) (relative_path : string) : string :=
  match List.find (path_exists fs) (possible_paths fs relative_path) with
  | Some path => path
  | None => path_join (base_path fs) relative_path
  end.

(** The JavaScript runtimes the module knows, and which packages import. *)
Inductive JsRuntime := MiniRacer | ExecJS.

Record Installed := { py_mini_racer : bool; execjs : bool }.

(** [get_js_runtime]: the result and the new value of the global
    [_js_runtime]. *)
Definition get_js_runtime (inst : Installed) (_js_runtime : option JsRuntime)
    : option JsRuntime * option JsRuntime :=
  match _js_runtime with
  | Some rt => (Some rt, Some rt)
  | None =>
    if py_mini_racer inst then (Some MiniRacer, Some MiniRacer)
    else if execjs inst then (Some ExecJS, Some ExecJS)
    else (None, None)
  end.

(** [clear_js_runtime_cache] *)
Definition clear_js_runtime_cache (_js_runtime : option JsRuntime)
    : option JsRuntime := None.

(** A file system holding the script next to the module only. *)
Definition packaged : FileSystem :=
  {| meipass := None;
     abspath := fun p => "/home/user/" +:+ p;
     module_dir := "/opt/crawler";
     getcwd := "/home/user";
     path_exists := fun p => String.eqb p "/opt/crawler/sign.js" |}.

End Helpers.

(** ** Background loops: [_heartbeat], [_auto_save_worker], [stop] *)

Module Background.

Inductive Event :=
| Send (frame : bytes)      (* ws.send(frame, OPCODE_BINARY) is called *)
| Sleep (seconds : Z)       (* time.sleep *)
| LogFailed                 (* logger.error in the except clause *)
| CloseSocket               (* self.ws.close() is called *)
| LogCloseFailed            (* logger.warning: close raised *)
| Did (e : Effect).         (* an effect of a crawler method *)

(** What one round of the heartbeat loop meets. *)
Record Beat := {
  running : bool;      (* self.is_running *)
  connected : bool;    (* self.ws and self.ws.sock *)
  now_ms : Z;          (* int(time.time() * 1000) *)
  send_ok : bool       (* does ws.send return *)
}.

Definition ping_msg (rt : Runtime) (b : Beat) : bytes :=
  PushFrame_SerializeToString rt
    {| log_id := now_ms b; payload_type := "hb"; frame_payload := [] |}.

(** [_heartbeat], watched for at most [fuel] rounds from round [n] on. *)
Fixpoint _heartbeat (rt : Runtime) (env : nat -> Beat) (fuel n : nat) : list Event :=
  match fuel with
  | O => []
  | S fuel' =>
    if running (env n) && connected (env n) then
      if send_ok (env n)
      then Send (ping_msg rt (env n)) :: Sleep 10 :: _heartbeat rt env fuel' (S n)
      else [Send (ping_msg rt (env n)); LogFailed]     (* break *)
    else []
  end.

(** What one round of the auto-save loop meets: the flag when the loop
    tests it, what the dispatch thread does to the crawler during the
    sleep, the flag after the sleep, and the inputs of the save. *)
Record Round := {
  flag : bool;               (* self.auto_save_running at the while *)
  meanwhile : list Op;       (* steps of the other threads during the sleep *)
  flag_after : bool;         (* self.auto_save_running after the sleep *)
  save_time : string;
  io_ok : bool
}.

Definition lift (out : list Effect) : list Event := Did <$> out.

(** [_auto_save_worker], watched for at most [fuel] rounds. *)
Fixpoint _auto_save_worker (rt : Runtime) (auto_save_interval : Z)
    (env : nat -> Round) (fuel n : nat) (self : Crawler)
    : Crawler * list Event :=
  match fuel with
  | O => (self, [])
  | S fuel' =>
    if flag (env n) then
      let '(self1, out1) := run rt (meanwhile (env n)) self in
      let '(self2, out2) :=
        if flag_after (env n)
        then _save_data rt (save_time (env n)) (io_ok (env n)) self1
        else (self1, []) in
      let '(self3, events) :=
        _auto_save_worker rt auto_save_interval env fuel' (S n) self2 in
      (self3, Sleep auto_save_interval :: lift out1 ++ lift out2 ++ events)
    else (self, [])
  end.

(** The steps the crawler goes through while the worker is watched. *)
Fixpoint schedule (env : nat -> Round) (fuel n : nat) : list Op :=
  match fuel with
  | O => []
  | S fuel' =>
    if flag (env n) then
      meanwhile (env n) ++
      (if flag_after (env n) then [Save (save_time (env n)) (io_ok (env n))] else []) ++
      schedule env fuel' (S n)
    else []
  end.

(** The flags [stop] clears, with the global runtime cache. *)
Record Control := {
  is_running : bool;
  auto_save_running : bool;
  js_runtime_cache : option Helpers.JsRuntime
}.

(** [stop]; [ws] tells whether [self.ws] is set and [close_ok] whether
    [close] returns.  [_save_data] catches its own exceptions, so the
    outer [except] is never entered. *)
Definition stop (rt : Runtime) (ws close_ok : bool) (save_time : string)
    (io_ok : bool) (ctl : Control) (self : Crawler)
    : Control * Crawler * list Event :=
  let closing :=
    if ws then (if close_ok then [CloseSocket] else [CloseSocket; LogCloseFailed])
    else [] in
  let '(self', out) := _save_data rt save_time io_ok self in
  ({| is_running := false; auto_save_running := false;
      js_runtime_cache := Helpers.clear_js_runtime_cache (js_runtime_cache ctl) |},
   self', closing ++ lift out).

(** The frames sent, and the crawler effects, of a list of events. *)
Definition frames (events : list Event) : list bytes :=
  omap (fun e => match e with Send f => Some f | _ => None end) events.

Definition effects (events : list Event) : list Effect :=
  omap (fun e => match e with Did e => Some e | _ => None end) events.

(** Rounds that all send well. *)
Definition steady (n : nat) : Beat :=
  {| running := true; connected := true; now_ms := 1700000000000 + Z.of_nat n;
     send_ok := true |}.

End Background.

(** ** Notions used in the proofs about texts *)

Module TextSpec.

Definition digit (c : ascii) : Prop := Text.is_digit c = true.

(** What follows the live id in the glob pattern. *)
Definition tail_pattern : list ascii := list_ascii_of_string "_*_*.json".

End TextSpec.

(** A character is absent from a text made of literal pieces and of
    pieces covered by the lemma [absent]. *)
Ltac absent_by absent :=
  repeat (apply not_elem_of_app; split);
  first [ by_evaluation | apply absent; [assumption | tauto] ].

(** * Properties *)

(** ** Sequencing *)

Lemma and_then_fst (f g : Step) self :
  fst (and_then f g self) = fst (g (fst (f self))).
Proof.
  unfold and_then. destruct (f self) as [s1 o1]; simpl.
  destruct (g s1) as [s2 o2]; reflexivity.
Qed.

Lemma and_then_snd (f g : Step) self :
  snd (and_then f g self) = snd (f self) ++ snd (g (fst (f self))).
Proof.
  unfold and_then. destruct (f self) as [s1 o1]; simpl.
  destruct (g s1) as [s2 o2]; reflexivity.
Qed.

Lemma preserves_and_then P f g :
  preserves P f -> preserves P g -> preserves P (and_then f g).
Proof.
  intros Hf Hg self HP. rewrite and_then_fst. apply Hg, Hf, HP.
Qed.

Lemma preserves_skip P : preserves P (fun self => (self, [])).
Proof. intros self HP. exact HP. Qed.

Section Lifting.
Context (rt : Runtime) (P : Crawler -> Prop).

Hypothesis chat_ok : forall now msg, preserves P (_process_chat_message rt now msg).
Hypothesis gift_ok : forall msg, preserves P (_process_gift_message rt msg).
Hypothesis member_ok : forall msg, preserves P (_process_member_message rt msg).
Hypothesis like_ok : forall msg, preserves P (_process_like_message rt msg).
Hypothesis follow_ok : forall now msg, preserves P (_process_follow_message rt now msg).
Hypothesis viewer_ok : forall msg, preserves P (_process_viewer_count rt msg).
Hypothesis save_ok : forall t io, preserves P (_save_data rt t io).

Lemma preserves_process_message now msg : preserves P (_process_message rt now msg).
Proof.
  unfold _process_message.
  repeat (case_match; [solve [auto] |]). apply preserves_skip.
Qed.

Lemma preserves_process_messages msgs :
  forall clock, preserves P (process_messages rt clock msgs).
Proof.
  induction msgs as [| msg rest IH]; intros clock; simpl.
  - apply preserves_skip.
  - apply preserves_and_then; [apply preserves_process_message | apply IH].
Qed.

Lemma preserves_on_message send_ok clock message :
  preserves P (_on_message rt send_ok clock message).
Proof.
  intros self HP. unfold _on_message.
  repeat case_match; simpl; try exact HP;
    match goal with
    | H : process_messages rt ?c ?l ?s = _ |- _ =>
      pose proof (preserves_process_messages l c s HP) as Hk;
      rewrite H in Hk; exact Hk
    | |- _ => apply preserves_process_messages; exact HP
    end.
Qed.

Lemma preserves_run ops : preserves P (run rt ops).
Proof.
  induction ops as [| op rest IH]; simpl.
  - apply preserves_skip.
  - apply preserves_and_then; [| exact IH].
    destruct op; simpl;
      [apply preserves_on_message | apply preserves_process_message | apply save_ok].
Qed.

End Lifting.

Lemma run_app rt (ops1 ops2 : list Op) self :
  run rt (ops1 ++ ops2) self = and_then (run rt ops1) (run rt ops2) self.
Proof.
  revert self. induction ops1 as [| op rest IH]; intros self; simpl.
  - unfold and_then. destruct (run rt ops2 self); reflexivity.
  - unfold and_then in *. destruct (run_op rt op self) as [s1 o1].
    rewrite IH. destruct (run rt rest s1) as [s2 o2].
    destruct (run rt ops2 s2) as [s3 o3]. rewrite app_assoc. reflexivity.
Qed.

(** ** The dispatcher *)

Lemma dispatch_member rt now msg :
  method msg = "WebcastMemberMessage" ->
  _process_message rt now msg = _process_member_message rt msg.
Proof. intros H. unfold _process_message. rewrite H. reflexivity. Qed.

Lemma dispatch_gift rt now msg :
  method msg = "WebcastGiftMessage" ->
  _process_message rt now msg = _process_gift_message rt msg.
Proof. intros H. unfold _process_message. rewrite H. reflexivity. Qed.

Lemma dispatch_viewer rt now msg :
  method msg = "WebcastRoomUserSeqMessage" ->
  _process_message rt now msg = _process_viewer_count rt msg.
Proof. intros H. unfold _process_message. rewrite H. reflexivity. Qed.

(** ** Member dedup *)



Lemma member_new rt msg ev self :
  MemberMessage_parse rt (payload msg) = Some ev ->
  pretty (id (member_user ev)) ∉ cache_members self ->
  _process_member_message rt msg self =
    (set_cache_members ({[pretty (id (member_user ev))]} ∪ cache_members self)
       (set_data (set_members
                    (PySet ({[nick_name (member_user ev)]} ∪
                            py_set (members (data self)))) (data self)) self),
     [LogEntered (nick_name (member_user ev))]).
Proof.
  intros Hp Hin. unfold _process_member_message. rewrite Hp.
  rewrite decide_False by exact Hin. reflexivity.
Qed.


(** ** Members against the dedup set *)

Lemma members_bounded_run rt ops : preserves members_bounded (run rt ops).
Proof.
  apply preserves_run; intros; intros self [s [Hs Hle]]; revert Hs Hle;
    handler; intros Hs Hle; try (exists s; split; [exact Hs | exact Hle]).
  rewrite Hs. simpl. eexists; split; [reflexivity |].
  pose proof (size_union_alt (C := gset string)
                {[nick_name (member_user m)]} s) as Hm.
  pose proof (size_union (C := gset string)
                {[pretty (id (member_user m))]} (cache_members self)) as Hc.
  rewrite size_singleton in Hm, Hc.
  simpl. rewrite Hm, Hc by set_solver.
  pose proof (subseteq_size (s ∖ {[nick_name (member_user m)]}) s) as Hsub.
  specialize (Hsub (subseteq_difference_l _ _ _ (reflexivity s))). lia.
Qed.

Lemma members_bounded_init lid date n : members_bounded (init lid date n).
Proof. exists ∅. split; [reflexivity | apply Nat.le_0_l]. Qed.

(** C10.  Dedup is keyed by [str(user.id)] while the members set holds
    nicknames.  After any run from a fresh session the members set is no
    larger than the dedup set; and two Member events of distinct users
    under one nickname put both keys into the dedup set while the
    members set receives that one nickname only. *)
Theorem members_undercount_dedup rt :
  (forall lid date n ops,
      let self := fst (run rt ops (init lid date n)) in
      (py_len (members (data self)) <= size (cache_members self))%nat)
  /\
  (forall self clock msg1 msg2 ev1 ev2,
      member_event rt msg1 ev1 ->
      member_event rt msg2 ev2 ->
      id (member_user ev1) <> id (member_user ev2) ->
      nick_name (member_user ev1) = nick_name (member_user ev2) ->
      pretty (id (member_user ev1)) ∉ cache_members self ->
      pretty (id (member_user ev2)) ∉ cache_members self ->
      let self' := fst (process_messages rt clock [msg1; msg2] self) in
      cache_members self' =
        {[pretty (id (member_user ev2))]} ∪
        ({[pretty (id (member_user ev1))]} ∪ cache_members self)
      /\ size (cache_members self') = S (S (size (cache_members self)))
      /\ members (data self') =
           PySet ({[nick_name (member_user ev1)]} ∪ py_set (members (data self)))).
Proof.
  split.
  - intros lid date n ops self.
    destruct (members_bounded_run rt ops _ (members_bounded_init lid date n))
      as [s [Hs Hle]].
    unfold self. rewrite Hs. exact Hle.
  - intros self clock msg1 msg2 ev1 ev2 [Hm1 Hp1] [Hm2 Hp2] Hid Hnick Hn1 Hn2 self'.
    assert (Hkey : pretty (id (member_user ev1)) <> pretty (id (member_user ev2)))
      by (intros Heq; apply Hid; exact (pretty_Z_inj _ _ Heq)).
    assert (Hself : self' =
      set_cache_members
        ({[pretty (id (member_user ev2))]} ∪
         ({[pretty (id (member_user ev1))]} ∪ cache_members self))
        (set_data (set_members
           (PySet ({[nick_name (member_user ev2)]} ∪
                   ({[nick_name (member_user ev1)]} ∪ py_set (members (data self)))))
           (data self)) self)).
    { unfold self'. simpl. rewrite !and_then_fst.
      rewrite !dispatch_member by assumption.
      rewrite (member_new _ _ _ _ Hp1 Hn1). simpl.
      rewrite (member_new _ _ _ _ Hp2) by (simpl; set_solver).
      reflexivity. }
    rewrite Hself. simpl. split; [reflexivity |]. split.
    + rewrite !size_union by set_solver. rewrite !size_singleton. lia.
    + rewrite <- Hnick. f_equal. set_solver.
Qed.

(** ** Viewer count *)

Lemma last_cons {A} (x d : A) (l : list A) :
  List.last (x :: l) d = List.last l x.
Proof.
  revert x d. induction l as [| y l IH]; intros x d; [reflexivity |].
  change (List.last (y :: l) d = List.last (y :: l) x).
  rewrite !IH. reflexivity.
Qed.

(** C8.  After a sequence of ViewerCount events [total_viewers] is the
    value carried by the last of them (and is left alone by an empty
    sequence): each event overwrites, none adds. *)
Theorem viewer_count_last_write_wins rt clock self msgs evs :
  Forall2 (viewer_event rt) msgs evs ->
  total_viewers (data (fst (process_messages rt clock msgs self))) =
  List.last (total_user <$> evs) (total_viewers (data self)).
Proof.
  intros H. revert clock self.
  induction H as [| msg ev msgs evs [Hm Hp] _ IH]; intros clock self.
  - reflexivity.
  - rewrite fmap_cons, last_cons.
    simpl process_messages. rewrite and_then_fst, IH.
    rewrite dispatch_viewer by exact Hm.
    unfold _process_viewer_count. rewrite Hp. reflexivity.
Qed.

(** ** The ack *)

Lemma sent_app out1 out2 : sent (out1 ++ out2) = sent out1 ++ sent out2.
Proof. unfold sent. apply omap_app. Qed.

Lemma process_message_sends_nothing rt now msg self :
  sent (snd (_process_message rt now msg self)) = [].
Proof.
  unfold _process_message. repeat case_match; handler.
Qed.

Lemma process_messages_send_nothing rt msgs :
  forall clock self, sent (snd (process_messages rt clock msgs self)) = [].
Proof.
  induction msgs as [| msg rest IH]; intros clock self; simpl; [reflexivity |].
  rewrite and_then_snd, sent_app, process_message_sends_nothing, IH.
  reflexivity.
Qed.

(** C2.  When the inbound envelope decodes to a batch that asks for an
    ack, [ws.send] is called exactly once, with the serialized envelope
    that carries the inbound [log_id], payload type "ack" and the UTF-8
    bytes of [internal_ext]; that call is the first effect of the
    handler, ahead of everything the dispatch of the sub-messages does,
    and it is the same whatever the sub-messages are.  Dispatch follows
    when the send returns. *)
Theorem ack_is_sent_first rt send_ok clock message self package raw response :
  PushFrame_parse rt message = Some package ->
  gzip_decompress rt (frame_payload package) = Some raw ->
  Response_parse rt raw = Some response ->
  need_ack response = true ->
  let ack :=
    PushFrame_SerializeToString rt
      {| log_id := log_id package;
         payload_type := "ack";
         frame_payload := list_byte_of_string (internal_ext response) |} in
  let result := _on_message rt send_ok clock message self in
  sent (snd result) = [ack]
  /\ exists rest,
      snd result = WsSend ack :: rest
      /\ (send_ok = true ->
          (fst result, rest) = process_messages rt clock (messages_list response) self)
      /\ (send_ok = false -> fst result = self /\ rest = [LogError InOnMessage]).
Proof.
  intros Hframe Hzip Hbatch Hack ack result.
  unfold result, _on_message. rewrite Hframe, Hzip, Hbatch, Hack.
  fold (ack_frame package response).
  destruct send_ok.
  - pose proof (process_messages_send_nothing rt (messages_list response) clock self)
      as Hquiet.
    destruct (process_messages rt clock (messages_list response) self)
      as [self' out] eqn:Hrun.
    simpl in *. split.
    + unfold sent in *. simpl. rewrite Hquiet. reflexivity.
    + exists out. split; [reflexivity |]. split; [reflexivity | discriminate].
  - simpl. split; [reflexivity |].
    exists [LogError InOnMessage]. split; [reflexivity |].
    split; [discriminate | split; reflexivity].
Qed.

(** ** The store of gift dictionaries *)

Section Store.
Context (rt : Runtime).

Lemma list_to_set_list_of_set (s : gset string) :
  list_to_set (list_of_set rt s) = s.
Proof.
  apply leibniz_equiv. rewrite (list_of_set_perm rt s).
  apply list_to_set_elements.
Qed.

Lemma stat_view_senders_to_list gd :
  stat_view (senders_to_list rt gd) = stat_view gd.
Proof.
  unfold senders_to_list, stat_view.
  destruct (senders gd) as [s | l] eqn:E; simpl; rewrite ?E; [| reflexivity].
  simpl. rewrite list_to_set_list_of_set. reflexivity.
Qed.

(** The conversion loop of [_save_data], seen at one address. *)
Lemma convert_loop_view (entries : list (string * loc)) (h : gmap loc GiftStat) l :
  stat_view <$>
    (foldr (fun entry h => alter (senders_to_list rt) (snd entry) h) h entries !! l)
  = stat_view <$> (h !! l).
Proof.
  induction entries as [| e entries IH]; simpl; [reflexivity |].
  rewrite lookup_alter. case_decide; [subst l | exact IH].
  rewrite <- IH. destruct (foldr _ h entries !! e.2) as [gd |]; simpl; [| reflexivity].
  rewrite stat_view_senders_to_list. reflexivity.
Qed.

Lemma convert_loop_is_Some (entries : list (string * loc)) (h : gmap loc GiftStat) l :
  is_Some (h !! l) ->
  is_Some (foldr (fun entry h => alter (senders_to_list rt) (snd entry) h) h entries !! l).
Proof.
  intros H. rewrite <- (fmap_is_Some stat_view), convert_loop_view.
  rewrite fmap_is_Some. exact H.
Qed.

(** The fields [_save_data] leaves alone: all but the store. *)
Lemma save_data_frame t io self :
  fst (_save_data rt t io self) =
  set_store (foldr (fun entry h => alter (senders_to_list rt) (snd entry) h)
                   (store self) (map_to_list (gifts (data self)))) self.
Proof. unfold _save_data. destruct io; reflexivity. Qed.

Lemma save_data_gift_view t io self gname :
  gift_view (fst (_save_data rt t io self)) gname = gift_view self gname.
Proof.
  rewrite save_data_frame. unfold gift_view, gift_stat. simpl.
  destruct (gifts (data self) !! gname) as [l |]; [| reflexivity].
  apply convert_loop_view.
Qed.

Lemma save_data_wf t io : preserves wf (_save_data rt t io).
Proof.
  intros self [Halloc Hinj]. rewrite save_data_frame. split; simpl.
  - intros n l Hn. apply convert_loop_is_Some. exact (Halloc n l Hn).
  - exact Hinj.
Qed.

(** The gift handler on a decoded event, in terms of the dictionary each
    name leads to. *)
Lemma gift_step msg ev self :
  GiftMessage_parse rt (payload msg) = Some ev ->
  wf self ->
  let self' := fst (_process_gift_message rt msg self) in
  wf self'
  /\ gift_stat self' (name (gift ev)) =
       Some (gift_update (repeat_count ev)
               (diamond_count (gift ev) * repeat_count ev)
               (nick_name (gift_user ev))
               (default new_gift_stat (gift_stat self (name (gift ev)))))
  /\ (forall n, n <> name (gift ev) -> gift_stat self' n = gift_stat self n).
Proof.
  intros Hp [Halloc Hinj]. unfold _process_gift_message. rewrite Hp.
  unfold gift_stat.
  destruct (gifts (data self) !! name (gift ev)) as [l |] eqn:Hl; simpl.
  - rewrite Hl. simpl. destruct (Halloc _ _ Hl) as [gd Hgd].
    split; [split |]; simpl.
    + intros n l' Hn. rewrite lookup_alter. case_decide; subst.
      * rewrite Hgd. eauto.
      * exact (Halloc n l' Hn).
    + exact Hinj.
    + split.
      * rewrite Hl, lookup_alter, decide_True, Hgd by reflexivity. reflexivity.
      * intros n Hne. destruct (gifts (data self) !! n) as [l' |] eqn:Hn;
          [| reflexivity].
        rewrite lookup_alter, decide_False; [reflexivity |].
        intros ->. apply Hne. exact (Hinj _ _ _ Hn Hl).
  - rewrite lookup_insert_eq. simpl.
    pose proof (is_fresh (dom (store self))) as Hfresh.
    set (l := fresh (dom (store self))) in *.
    assert (Hold : forall n l', gifts (data self) !! n = Some l' -> l' <> l).
    { intros n l' Hn ->. apply Hfresh. apply elem_of_dom. exact (Halloc _ _ Hn). }
    split; [split |]; simpl.
    + intros n l' Hn. rewrite lookup_alter. 
      destruct (decide (name (gift ev) = n)) as [E | Hne].
      * subst n. rewrite lookup_insert_eq in Hn. injection Hn as <-.
        rewrite decide_True, lookup_insert_eq by reflexivity. eauto.
      * rewrite lookup_insert_ne in Hn by exact Hne.
        rewrite decide_False by (intros Heq; exact (Hold _ _ Hn (eq_sym Heq))).
        rewrite lookup_insert_ne by (intros Heq; exact (Hold _ _ Hn (eq_sym Heq))).
        exact (Halloc _ _ Hn).
    + intros n1 n2 l' H1 H2.
      destruct (decide (name (gift ev) = n1)) as [E1 | N1];
        destruct (decide (name (gift ev) = n2)) as [E2 | N2].
      * congruence.
      * subst n1. rewrite lookup_insert_eq in H1. injection H1 as <-.
        rewrite lookup_insert_ne in H2 by exact N2.
        destruct (Hold _ _ H2 eq_refl).
      * subst n2. rewrite lookup_insert_eq in H2. injection H2 as <-.
        rewrite lookup_insert_ne in H1 by exact N1.
        destruct (Hold _ _ H1 eq_refl).
      * rewrite lookup_insert_ne in H1 by exact N1.
        rewrite lookup_insert_ne in H2 by exact N2.
        exact (Hinj _ _ _ H1 H2).
    + split.
      * rewrite lookup_insert_eq, lookup_alter, decide_True, lookup_insert_eq
          by reflexivity.
        reflexivity.
      * intros n Hne. rewrite lookup_insert_ne by (intros Heq; apply Hne; auto).
        destruct (gifts (data self) !! n) as [l' |] eqn:Hn; [| reflexivity].
        rewrite lookup_alter, decide_False
          by (intros Heq; exact (Hold _ _ Hn (eq_sym Heq))).
        apply lookup_insert_ne. intros Heq. exact (Hold _ _ Hn (eq_sym Heq)).
Qed.

End Store.

(** ** Gift totals *)

Lemma same_gifts_wf self self' : same_gifts self self' -> wf self -> wf self'.
Proof. intros [Hg Hs]. unfold wf. rewrite Hg, Hs. auto. Qed.

Lemma same_gifts_view self self' gname :
  same_gifts self self' -> gift_view self' gname = gift_view self gname.
Proof. intros [Hg Hs]. unfold gift_view, gift_stat. rewrite Hg, Hs. reflexivity. Qed.

Lemma stat_view_default (o : option GiftStat) :
  default (0, 0, ∅) (stat_view <$> o) = stat_view (default new_gift_stat o).
Proof. destruct o; reflexivity. Qed.

Lemma absorb_nil gname v : absorb gname [] v = v.
Proof. reflexivity. Qed.

Lemma absorb_app gname evs1 evs2 v :
  absorb gname (evs1 ++ evs2) v = absorb gname evs2 (absorb gname evs1 v).
Proof. unfold absorb, named. rewrite filter_app, foldl_app. reflexivity. Qed.

Section GiftTotals.
Context (rt : Runtime).

Lemma gift_message_view msg self gname :
  wf self ->
  wf (fst (_process_gift_message rt msg self))
  /\ gift_view (fst (_process_gift_message rt msg self)) gname =
     absorb gname (option_list (GiftMessage_parse rt (payload msg)))
            (gift_view self gname).
Proof.
  intros Hwf.
  destruct (GiftMessage_parse rt (payload msg)) as [ev |] eqn:Hp.
  - destruct (gift_step rt msg ev self Hp Hwf) as [Hwf' [Hsame Hother]].
    split; [exact Hwf' |].
    unfold absorb, named, gift_view. simpl option_list.
    rewrite filter_cons, filter_nil.
    destruct (decide (name (gift ev) = gname)) as [<- | Hne]; simpl.
    + rewrite Hsame. unfold add_gift. rewrite stat_view_default.
      reflexivity.
    + rewrite Hother by (intros E; apply Hne; auto). reflexivity.
  - unfold _process_gift_message. rewrite Hp. simpl. split; [exact Hwf |].
    reflexivity.
Qed.

Lemma message_view now msg self gname :
  wf self ->
  wf (fst (_process_message rt now msg self))
  /\ gift_view (fst (_process_message rt now msg self)) gname =
     absorb gname (omap (gift_of rt) [msg]) (gift_view self gname).
Proof.
  intros Hwf. unfold _process_message, gift_of. simpl omap.
  destruct (String.eqb (method msg) "WebcastGiftMessage") eqn:Egift.
  - apply String.eqb_eq in Egift. rewrite Egift. simpl.
    destruct (gift_message_view msg self gname Hwf) as [Hwf' Hview].
    split; [exact Hwf' |]. rewrite Hview.
    destruct (GiftMessage_parse rt (payload msg)); reflexivity.
  - assert (Hsame : same_gifts self (fst (
        (if String.eqb (method msg) "WebcastChatMessage"
         then _process_chat_message rt now msg
         else if String.eqb (method msg) "WebcastMemberMessage"
         then _process_member_message rt msg
         else if String.eqb (method msg) "WebcastLikeMessage"
         then _process_like_message rt msg
         else if String.eqb (method msg) "WebcastSocialMessage"
         then _process_follow_message rt now msg
         else if String.eqb (method msg) "WebcastRoomUserSeqMessage"
         then _process_viewer_count rt msg
         else fun self => (self, [])) self))).
    { repeat case_match; handler; split; reflexivity. }
    split; [exact (same_gifts_wf _ _ Hsame Hwf) |].
    rewrite absorb_nil. exact (same_gifts_view _ _ gname Hsame).
Qed.

Lemma messages_view msgs :
  forall clock self gname,
    wf self ->
    wf (fst (process_messages rt clock msgs self))
    /\ gift_view (fst (process_messages rt clock msgs self)) gname =
       absorb gname (omap (gift_of rt) msgs) (gift_view self gname).
Proof.
  induction msgs as [| msg rest IH]; intros clock self gname Hwf.
  - split; [exact Hwf | reflexivity].
  - simpl process_messages. rewrite and_then_fst.
    destruct (message_view (clock 0%nat) msg self gname Hwf) as [Hwf1 Hv1].
    destruct (IH (fun i => clock (S i)) _ gname Hwf1) as [Hwf2 Hv2].
    split; [exact Hwf2 |].
    rewrite Hv2, Hv1. change (msg :: rest) with ([msg] ++ rest).
    rewrite omap_app, absorb_app. reflexivity.
Qed.

Lemma op_view op self gname :
  wf self ->
  wf (fst (run_op rt op self))
  /\ gift_view (fst (run_op rt op self)) gname =
     absorb gname (omap (gift_of rt) (dispatched rt op)) (gift_view self gname).
Proof.
  intros Hwf. destruct op as [send_ok clock message | now msg | t io]; simpl.
  - unfold _on_message.
    destruct (PushFrame_parse rt message) as [package |]; [| by split].
    destruct (gzip_decompress rt (frame_payload package)) as [raw |]; [| by split].
    destruct (Response_parse rt raw) as [response |]; [| by split].
    destruct (need_ack response), send_ok; simpl; try (by split).
    + destruct (messages_view (messages_list response) clock self gname Hwf)
        as [H1 H2].
      destruct (process_messages rt clock (messages_list response) self); auto.
    + apply messages_view; exact Hwf.
    + apply messages_view; exact Hwf.
  - apply message_view; exact Hwf.
  - split; [apply save_data_wf; exact Hwf |].
    rewrite save_data_gift_view. reflexivity.
Qed.

Lemma run_view ops :
  forall self gname,
    wf self ->
    wf (fst (run rt ops self))
    /\ gift_view (fst (run rt ops self)) gname =
       absorb gname (omap (gift_of rt) (ops ≫= dispatched rt)) (gift_view self gname).
Proof.
  induction ops as [| op rest IH]; intros self gname Hwf.
  - split; [exact Hwf | reflexivity].
  - simpl run. rewrite and_then_fst.
    destruct (op_view op self gname Hwf) as [Hwf1 Hv1].
    destruct (IH _ gname Hwf1) as [Hwf2 Hv2].
    split; [exact Hwf2 |].
    rewrite Hv2, Hv1, bind_cons, omap_app, absorb_app. reflexivity.
Qed.

End GiftTotals.

Lemma wf_init lid date n : wf (init lid date n).
Proof.
  split; simpl; intros *; rewrite lookup_empty; discriminate.
Qed.

Lemma add_gift_Some ev c t (s : gset string) :
  add_gift ev (Some (c, t, s)) =
  Some (c + repeat_count ev, t + diamond_count (gift ev) * repeat_count ev,
        {[nick_name (gift_user ev)]} ∪ s).
Proof. reflexivity. Qed.

Lemma add_gifts_totals (evs : list GiftMessage) :
  forall c t (s : gset string),
    foldl (fun v ev => add_gift ev v) (Some (c, t, s)) evs =
    Some (c + Zsum (repeat_count <$> evs),
          t + Zsum ((fun ev => diamond_count (gift ev) * repeat_count ev) <$> evs),
          list_to_set ((fun ev => nick_name (gift_user ev)) <$> evs) ∪ s).
Proof.
  induction evs as [| ev evs IH]; intros c t s.
  - simpl. rewrite !Z.add_0_r. f_equal. f_equal. set_solver.
  - simpl foldl. rewrite add_gift_Some, IH. rewrite !fmap_cons. simpl.
    rewrite !Z.add_assoc. f_equal. f_equal. set_solver.
Qed.

(** C1.  Take any run from a fresh session: sub-messages of every kind,
    whole inbound frames and snapshot writes, in any order.  For each
    gift name, the GiftStat the run leaves for it holds the sum of the
    [repeat_count]s of the Gift events for that name, the sum of
    [diamond_count * repeat_count] over them, and, as senders, the set
    of their sender nicknames; every event is counted, whoever sent it.
    There is no entry when no such event occurred. *)
Theorem gift_totals rt lid date n ops gift_name :
  gift_view (fst (run rt ops (init lid date n))) gift_name =
  match gifts_named rt gift_name ops with
  | [] => None
  | evs => Some (totals evs)
  end.
Proof.
  destruct (run_view rt ops (init lid date n) gift_name (wf_init lid date n))
    as [_ Hview].
  rewrite Hview. unfold absorb, gifts_named, totals.
  destruct (named gift_name (omap (gift_of rt) (ops ≫= dispatched rt)))
    as [| ev evs]; [reflexivity |].
  change (gift_view (init lid date n) gift_name) with (@None (Z * Z * gset string)).
  simpl foldl. change (add_gift ev None) with (add_gift ev (Some (0, 0, ∅))).
  rewrite add_gift_Some, add_gifts_totals. rewrite !fmap_cons. simpl.
  f_equal. f_equal. set_solver.
Qed.

(** ** Isolation of decode failures *)

Lemma process_messages_app rt msgs1 msgs2 :
  forall clock self,
    process_messages rt clock (msgs1 ++ msgs2) self =
    and_then (process_messages rt clock msgs1)
             (process_messages rt (fun i => clock (length msgs1 + i)%nat) msgs2) self.
Proof.
  induction msgs1 as [| msg rest IH]; intros clock self; simpl.
  - unfold and_then.
    destruct (process_messages rt _ msgs2 self) as [s o]. reflexivity.
  - unfold and_then in *. destruct (_process_message rt (clock 0%nat) msg self) as [s1 o1].
    rewrite IH. destruct (process_messages rt _ rest s1) as [s2 o2].
    simpl. destruct (process_messages rt _ msgs2 s2) as [s3 o3].
    rewrite app_assoc. reflexivity.
Qed.

(** A sub-message whose decoder raises, or whose tag is unknown, leaves
    the crawler as it is; the former is logged. *)
Lemma skip_message rt now msg self :
  decode_fails rt msg \/ place_of msg = None ->
  _process_message rt now msg self = (self, skip_log msg).
Proof.
  unfold decode_fails, skip_log, place_of, _process_message.
  intros [H | H]; revert H;
    repeat (destruct (String.eqb (method msg) _)); try discriminate;
    try contradiction; try reflexivity; intros H; handler; congruence.
Qed.

Lemma reachable_wf rt ops lid date n : wf (fst (run rt ops (init lid date n))).
Proof.
  exact (proj1 (run_view rt ops (init lid date n) "" (wf_init lid date n))).
Qed.

(** C4.  In a batch, a sub-message whose typed decode fails is logged and
    skipped, one with an unknown tag is skipped silently, and the
    sub-messages before and after it are processed as if it were not
    there.  In particular a batch made of that sub-message and a
    well-formed Gift sub-message, in either order, leaves the crawler as
    the Gift handler alone does, with the gift's count, value and sender
    recorded. *)
Theorem decode_failure_is_isolated rt lid date n ops clock pre bad post gmsg gev :
  let self := fst (run rt ops (init lid date n)) in
  decode_fails rt bad \/ place_of bad = None ->
  gift_event rt gmsg gev ->
  process_messages rt clock (pre ++ bad :: post) self =
    (let '(s1, out1) := process_messages rt clock pre self in
     let '(s2, out2) :=
       process_messages rt (fun i => clock (length pre + S i)%nat) post s1 in
     (s2, out1 ++ skip_log bad ++ out2))
  /\ fst (process_messages rt clock [bad; gmsg] self) =
     fst (_process_gift_message rt gmsg self)
  /\ fst (process_messages rt clock [gmsg; bad] self) =
     fst (_process_gift_message rt gmsg self)
  /\ gift_view (fst (_process_gift_message rt gmsg self)) (name (gift gev)) =
     add_gift gev (gift_view self (name (gift gev))).
Proof.
  intros self Hbad [Hm Hp]. split; [| split; [| split]].
  - rewrite process_messages_app. unfold and_then.
    destruct (process_messages rt clock pre self) as [s1 o1].
    simpl process_messages. unfold and_then.
    rewrite (skip_message _ _ _ _ Hbad).
    destruct (process_messages rt _ post s1) as [s2 o2]. reflexivity.
  - simpl process_messages. rewrite !and_then_fst.
    rewrite (skip_message _ _ _ _ Hbad). simpl.
    rewrite dispatch_gift by exact Hm. reflexivity.
  - simpl process_messages. rewrite !and_then_fst.
    rewrite (skip_message _ _ _ _ Hbad). simpl.
    rewrite dispatch_gift by exact Hm. reflexivity.
  - destruct (gift_message_view rt gmsg self (name (gift gev))
                (reachable_wf rt ops lid date n)) as [_ Hv].
    rewrite Hv, Hp. unfold absorb, named. simpl option_list.
    rewrite filter_cons, filter_nil, decide_True by reflexivity. reflexivity.
Qed.

(** ** Snapshot writes *)

(** What [_save_data] keeps: every field of [self] and [self.data] as it
    was, and each gift dictionary's count, value and set of senders. *)
Lemma save_data_keeps rt t io self :
  let self' := fst (_save_data rt t io self) in
  data self' = data self
  /\ cache_members self' = cache_members self
  /\ session_count self' = session_count self
  /\ forall gname, gift_view self' gname = gift_view self gname.
Proof.
  intros self'. unfold self'. repeat split; try (rewrite save_data_frame; reflexivity).
  intros gname. apply save_data_gift_view.
Qed.

(** C6 (fails on the code).  After one Gift event the senders of "rose"
    are the set {"ann"}; a snapshot write turns them, inside the
    aggregate itself, into the list ["ann"]: the crawler after the write
    differs from the crawler before it. *)
Theorem save_data_rewrites_senders :
  let before :=
    fst (run Demo.runtime [SubMessage 0 Demo.gift_rose_ann] Demo.fresh_session) in
  let after := fst (_save_data Demo.runtime "2024-05-01T12:00:00" true before) in
  gift_stat before "rose" =
    Some {| gift_count := 3; total_value := 15; senders := PySet {["ann"]} |}
  /\ gift_stat after "rose" =
    Some {| gift_count := 3; total_value := 15; senders := PyList ["ann"] |}
  /\ members (data after) = members (data before)
  /\ after <> before.
Proof.
  intros before after.
  assert (Hb : gift_stat before "rose" =
    Some {| gift_count := 3; total_value := 15; senders := PySet {["ann"]} |})
    by (vm_compute; reflexivity).
  assert (Ha : gift_stat after "rose" =
    Some {| gift_count := 3; total_value := 15; senders := PyList ["ann"] |})
    by (vm_compute; reflexivity).
  split; [exact Hb |]. split; [exact Ha |]. split; [reflexivity |].
  intros Heq. rewrite Heq, Hb in Ha. clear -Ha. discriminate Ha.
Qed.

(** ** The initial-connection loop *)

Module ConnectFacts.
Import Connect.

(** One pass that meets a usable signature and an exception. *)
Lemma pass_raises env n rc :
  running (env n) = true -> (rc < max_retries)%Z ->
  falsy (signature (env n)) = false -> raises (env n) = true ->
  connect_loop env n rc =
    match decide (rc + 1 < max_retries)%Z with
    | left _ =>
      let '(r, events) := connect_loop env (S n) (rc + 1) in
      (r, Try n :: LogAttemptFailed (rc + 1) :: Sleep retry_delay :: events)
    | right _ => (rc + 1, [Try n; LogAttemptFailed (rc + 1); LogGiveUp])
    end.
Proof.
  intros Hrun Hlt Hsig Hraise. rewrite connect_loop_equation_1.
  rewrite Hrun, Hsig, Hraise.
  replace (rc <? max_retries)%Z with true by (symmetry; apply Z.ltb_lt; exact Hlt).
  reflexivity.
Qed.

Lemma pass_signature_fails env n rc :
  running (env n) = true -> (rc < max_retries)%Z ->
  falsy (signature (env n)) = true ->
  connect_loop env n rc = (rc, [Try n; LogSignatureFailed]).
Proof.
  intros Hrun Hlt Hsig. rewrite connect_loop_equation_1.
  rewrite Hrun, Hsig.
  replace (rc <? max_retries)%Z with true by (symmetry; apply Z.ltb_lt; exact Hlt).
  reflexivity.
Qed.

(** The loop makes at most as many passes as there are slots left. *)
Lemma attempts_bounded env (k : nat) :
  forall n rc,
    (max_retries - rc <= Z.of_nat k)%Z ->
    (length (attempts (snd (connect_loop env n rc))) <= k)%nat.
Proof.
  induction k as [| k IH]; intros n rc Hk; rewrite connect_loop_equation_1.
  - replace (rc <? max_retries)%Z with false
      by (symmetry; apply Z.ltb_ge; lia).
    rewrite andb_false_r. simpl. lia.
  - destruct (running (env n) && (rc <? max_retries)%Z); [| simpl; lia].
    destruct (falsy (signature (env n))); [simpl; lia |].
    destruct (raises (env n)); [| simpl; lia].
    destruct (decide (rc + 1 < max_retries)%Z); [| simpl; lia].
    specialize (IH (S n) (rc + 1)%Z ltac:(lia)).
    destruct (connect_loop env (S n) (rc + 1)) as [r events].
    simpl in *. lia.
Qed.

End ConnectFacts.

(** C5, as the code has it.  A pass of the initial-connection loop that
    is entered with slots left and finds no signature ends the whole
    loop there: [retry_count] keeps its value, nothing sleeps and no
    further pass is made.  A pass that has its signature and raises
    takes one slot: [retry_count] grows by one, after which the loop
    sleeps 3 seconds and goes on if a slot is left, and gives up
    otherwise.  From [retry_count] the loop makes at most
    [3 - retry_count] passes. *)
Theorem signature_failure_ends_loop env n rc :
  Connect.running (env n) = true ->
  (rc < Connect.max_retries)%Z ->
  (Connect.falsy (Connect.signature (env n)) = true ->
   Connect.connect_loop env n rc = (rc, [Connect.Try n; Connect.LogSignatureFailed]))
  /\ (Connect.falsy (Connect.signature (env n)) = false ->
      Connect.raises (env n) = true ->
      ((rc + 1 < Connect.max_retries)%Z ->
       Connect.connect_loop env n rc =
         (fst (Connect.connect_loop env (S n) (rc + 1)),
          Connect.Try n :: Connect.LogAttemptFailed (rc + 1) ::
          Connect.Sleep 3 :: snd (Connect.connect_loop env (S n) (rc + 1))))
      /\ ((Connect.max_retries <= rc + 1)%Z ->
          Connect.connect_loop env n rc =
            (rc + 1, [Connect.Try n; Connect.LogAttemptFailed (rc + 1);
                      Connect.LogGiveUp])))
  /\ (length (Connect.attempts (snd (Connect.connect_loop env n rc)))
      <= Z.to_nat (Connect.max_retries - rc))%nat.
Proof.
  intros Hrun Hlt. split; [| split].
  - intros Hsig. apply ConnectFacts.pass_signature_fails; assumption.
  - intros Hsig Hraise.
    rewrite (ConnectFacts.pass_raises env n rc Hrun Hlt Hsig Hraise).
    split; intros Hslot.
    + rewrite decide_True by exact Hslot.
      destruct (Connect.connect_loop env (S n) (rc + 1)); reflexivity.
    + rewrite decide_False by lia. reflexivity.
  - apply ConnectFacts.attempts_bounded. lia.
Qed.

(** C5 as stated fails: the signature failure of pass 0 leaves all three
    slots unused and the crawler running, pass 1 would succeed, and yet
    pass 1 is never made: the loop has ended. *)
Lemma signature_failure_stops_all_attempts :
  let result := Connect._connectWebSocket first_signature_missing in
  Connect.falsy (Connect.signature (first_signature_missing 0)) = true
  /\ fst result = 0
  /\ Connect.running (first_signature_missing 1) = true
  /\ Connect.falsy (Connect.signature (first_signature_missing 1)) = false
  /\ Connect.attempts (snd result) = [0%nat]
  /\ ~ In (Connect.Try 1) (snd result).
Proof.
  vm_compute. repeat split; try reflexivity.
  intros [H | [H | []]]; discriminate.
Qed.

(** ** Room resolution *)

Lemma ttwid_frame net self :
  let self1 := snd (fst (ttwid net self)) in
  live_id self1 = live_id self
  /\ is_live self1 = is_live self
  /\ room_id_cache self1 = room_id_cache self.
Proof.
  unfold ttwid. repeat case_match; simpl; repeat split; reflexivity.
Qed.

(** C9, as the code has it.  With no room id cached yet: when the page
    comes back without the roomId pattern (a page in which no digit
    beyond 0-9 follows the marker, so that the search on bytes is that
    of [re.search]), [room_id] falls back to the live id, caches it and
    clears [is_live], and after the page request it logs the warning
    only; when the page request raises, [room_id] logs the error, yields
    [None] and leaves [is_live] and the cache as they were. *)
Theorem room_id_fallback net self :
  truthy (room_id_cache self) = false ->
  let result := room_id net self in
  let self' := snd (fst result) in
  let url := live_url +:+ live_id self in
  (forall response,
      room_page net self = Some response ->
      digits_are_ascii (list_ascii_of_string (text response)) = true ->
      Regex.search_room_id (text response) = None ->
      fst (fst result) = Some (live_id self)
      /\ room_id_cache self' = Some (live_id self)
      /\ is_live self' = false
      /\ snd result = snd (ttwid net self) ++ [HttpGet url; LogNoRoomId])
  /\ (room_page net self = None ->
      fst (fst result) = None
      /\ room_id_cache self' = room_id_cache self
      /\ is_live self' = is_live self
      /\ snd result = snd (ttwid net self) ++ [HttpGet url; LogError InRoomId]).
Proof.
  intros Hcache result self' url. unfold self', result, url, room_id, room_page.
  rewrite Hcache.
  destruct (ttwid_frame net self) as [Hlid [Hlive Hroom]].
  destruct (ttwid net self) as [[tw self1] out1]. simpl in *.
  split.
  - intros response Hget _ Hsearch. rewrite Hget, Hsearch. simpl.
    rewrite Hlid. repeat split; reflexivity.
  - intros Hget. rewrite Hget. simpl. repeat split; assumption || reflexivity.
Qed.

(** C9 as stated fails when the request itself fails: no room id comes
    back, none is cached, and [is_live] is still true. *)
Lemma room_id_no_fallback_on_request_failure :
  let self := init "7318296" "2024-05-01" 1 in
  let result := room_id unreachable self in
  room_page unreachable self = None
  /\ fst (fst result) = None
  /\ fst (fst result) <> Some (live_id self)
  /\ is_live (snd (fst result)) = true.
Proof.
  vm_compute. repeat split; try reflexivity. discriminate.
Qed.

(** ** Session ordinal *)

(** No step writes [session_count], [live_id] or [today]: the file name
    of the session is fixed once [__init__] has run. *)
Lemma session_fixed rt ops self :
  let self' := fst (run rt ops self) in
  session_count self' = session_count self
  /\ live_id self' = live_id self
  /\ today self' = today self.
Proof.
  pose proof (preserves_run rt
    (fun s => session_count s = session_count self
              /\ live_id s = live_id self /\ today s = today self)) as H.
  apply H; try (intros; intros s Hs; revert Hs; handler);
    repeat split; reflexivity.
Qed.

(** The example of the specification: files of sessions 1 and 2 of "X"
    (and a file of another room) give session 3. *)
Example session_count_X :
  _get_next_session_count
    ["X_1_2024-05-01.json"; "X_2_2024-05-02.json"; "Y_7_2024-05-02.json"] "X"
  = 3.
Proof. vm_compute. reflexivity. Qed.

Example session_count_numeric_id :
  let listing :=
    [filename (init "7318296" "2024-05-01" 1);
     filename (init "7318296" "2024-05-01" 2);
     filename (init "73182" "2024-05-01" 9)] in
  _get_next_session_count listing "7318296" = 3.
Proof. vm_compute. reflexivity. Qed.

(** C7 (fails on the code).  For the live id "a_b" the files written by
    its sessions 1 and 2 are in the directory, and the next session is
    numbered 1 again: the ordinal is read from the second field cut at
    underscores, which here is "b".  The new session writes to the file
    of session 1. *)
Theorem session_count_underscore_id :
  let listing :=
    [filename (init "a_b" "2024-05-01" 1); filename (init "a_b" "2024-05-02" 2)] in
  Text.glob ("a_b" +:+ "_*_*.json") listing = listing
  /\ ordinal_field (filename (init "a_b" "2024-05-01" 1)) = None
  /\ _get_next_session_count listing "a_b" = 1
  /\ filename (new_crawler listing "a_b" "2024-05-01") =
     filename (init "a_b" "2024-05-01" 1).
Proof. vm_compute. repeat split; reflexivity. Qed.

(** The files of another room can be counted too: a file of session 1 of
    the room "X_7" makes the first session of room "X" the eighth. *)
Example session_count_foreign_file :
  _get_next_session_count [filename (init "X_7" "2024-05-01" 1)] "X" = 8.
Proof. vm_compute. reflexivity. Qed.

(** ** Examples on the toy runtime *)

Example search_room_id_found : Regex.search_room_id page_live = Some "7318296".
Proof. vm_compute. reflexivity. Qed.

Example search_room_id_absent :
  Regex.search_room_id "<html>offline</html>" = None.
Proof. vm_compute. reflexivity. Qed.

Example connect_gives_up_after_three :
  Connect._connectWebSocket always_raises =
  (3, [Connect.Try 0; Connect.LogAttemptFailed 1; Connect.Sleep 3;
       Connect.Try 1; Connect.LogAttemptFailed 2; Connect.Sleep 3;
       Connect.Try 2; Connect.LogAttemptFailed 3; Connect.LogGiveUp]).
Proof. vm_compute. reflexivity. Qed.

Example rose_totals :
  gift_view
    (fst (run Demo.runtime
            [SubMessage 0 Demo.gift_rose_ann; Save "t" true;
             SubMessage 1 Demo.chat_broken; SubMessage 2 Demo.gift_rose_bob;
             SubMessage 3 Demo.gift_rose_ann]
            Demo.fresh_session)) "rose"
  = Some (8, 40, {["ann"; "bob"]}).
Proof. vm_compute. reflexivity. Qed.

Example viewers_not_summed :
  total_viewers
    (data (fst (process_messages Demo.runtime Demo.clock0
                  [Demo.viewers Byte.x05; Demo.viewers Byte.x09]
                  Demo.fresh_session))) = 9.
Proof. vm_compute. reflexivity. Qed.

(** ** Instances *)

Lemma ack_is_sent_first_witness :
  sent (snd (_on_message Demo.runtime true Demo.clock0 Demo.inbound_chat
               Demo.fresh_session)) =
  [Demo.serialize_frame
     {| log_id := 42; payload_type := "ack";
        frame_payload := Demo.ascii_bytes "ext" |}].
Proof.
  refine (proj1 (ack_is_sent_first Demo.runtime true Demo.clock0
                   Demo.inbound_chat Demo.fresh_session
                   Demo.inbound_frame
                   ([Byte.x01; Byte.xff] ++ Demo.ascii_bytes "ext" ++
                    [Byte.xff; Byte.x01] ++ payload Demo.chat_hello)
                   Demo.inbound_batch _ _ _ _));
    reflexivity.
Defined.


Lemma members_undercount_dedup_witness :
  let self' :=
    fst (process_messages Demo.runtime Demo.clock0
           [Demo.member_ann; Demo.member_ann_twin] Demo.fresh_session) in
  size (cache_members self') = 2%nat
  /\ members (data self') = PySet ({["ann"]} ∪ ∅).
Proof.
  refine (proj2 (proj2 (members_undercount_dedup Demo.runtime) Demo.fresh_session
    Demo.clock0 Demo.member_ann Demo.member_ann_twin
    {| member_user := {| id := 7; nick_name := "ann" |} |}
    {| member_user := {| id := 9; nick_name := "ann" |} |} _ _ _ _ _ _));
    try (split; reflexivity); try reflexivity;
    try apply not_elem_of_empty.
  discriminate.
Defined.

Lemma viewer_count_last_write_wins_witness :
  total_viewers
    (data (fst (process_messages Demo.runtime Demo.clock0
                  [Demo.viewers Byte.x05; Demo.viewers Byte.x09]
                  Demo.fresh_session))) = 9.
Proof.
  refine (viewer_count_last_write_wins Demo.runtime Demo.clock0 Demo.fresh_session
    [Demo.viewers Byte.x05; Demo.viewers Byte.x09]
    [{| total_user := 5 |}; {| total_user := 9 |}] _).
  repeat constructor.
Defined.

Lemma decode_failure_is_isolated_witness :
  fst (process_messages Demo.runtime Demo.clock0
         [Demo.chat_broken; Demo.gift_rose_ann] Demo.fresh_session) =
  fst (_process_gift_message Demo.runtime Demo.gift_rose_ann Demo.fresh_session).
Proof.
  refine (proj1 (proj2
    (decode_failure_is_isolated Demo.runtime "7318296" "2024-05-01" 1 []
       Demo.clock0 [] Demo.chat_broken []
       Demo.gift_rose_ann
       {| gift_user := {| id := 7; nick_name := "ann" |};
          gift := {| name := "rose"; diamond_count := 5 |};
          repeat_count := 3 |} _ _))).
  - left. reflexivity.
  - split; reflexivity.
Defined.

Lemma signature_failure_ends_loop_witness :
  Connect.connect_loop first_signature_missing 0 0 =
  (0, [Connect.Try 0; Connect.LogSignatureFailed]).
Proof.
  refine (proj1 (signature_failure_ends_loop first_signature_missing 0%nat 0 _ _) _);
    reflexivity.
Defined.

Lemma room_id_fallback_witness :
  let result := room_id offline_page (init "7318296" "2024-05-01" 1) in
  fst (fst result) = Some "7318296"
  /\ room_id_cache (snd (fst result)) = Some "7318296"
  /\ is_live (snd (fst result)) = false
  /\ snd result =
     [HttpGet "https://live.douyin.com/";
      HttpGet "https://live.douyin.com/7318296"; LogNoRoomId].
Proof.
  refine (proj1 (room_id_fallback offline_page (init "7318296" "2024-05-01" 1) _)
            {| text := "<html>offline</html>"; cookie_ttwid := Some "tw" |} _ _ _);
    reflexivity.
Defined.

(** * Further properties of the code *)

(** ** A relation kept along a run *)

Section Along.
Context (rt : Runtime) (R : Crawler -> list Message -> Crawler -> Prop).

Hypothesis R_nil : forall s, R s [] s.
Hypothesis R_app : forall s1 s2 s3 l1 l2,
    R s1 l1 s2 -> R s2 l2 s3 -> R s1 (l1 ++ l2) s3.
Hypothesis R_message : forall now msg s,
    R s [msg] (fst (_process_message rt now msg s)).
Hypothesis R_save : forall t io s, R s [] (fst (_save_data rt t io s)).

Lemma along_messages msgs :
  forall clock s, R s msgs (fst (process_messages rt clock msgs s)).
Proof.
  induction msgs as [| msg rest IH]; intros clock s; simpl.
  - apply R_nil.
  - rewrite and_then_fst.
    exact (R_app _ _ _ [msg] rest (R_message (clock 0%nat) msg s) (IH _ _)).
Qed.

Lemma along_op op s : R s (dispatched rt op) (fst (run_op rt op s)).
Proof.
  destruct op as [send_ok clock message | now msg | t io]; simpl.
  - unfold _on_message.
    destruct (PushFrame_parse rt message) as [package |]; [| apply R_nil].
    destruct (gzip_decompress rt (frame_payload package)) as [raw |]; [| apply R_nil].
    destruct (Response_parse rt raw) as [response |]; [| apply R_nil].
    destruct (need_ack response), send_ok; simpl; try apply R_nil;
      try apply along_messages.
    pose proof (along_messages (messages_list response) clock s) as H.
    destruct (process_messages rt clock (messages_list response) s). exact H.
  - apply R_message.
  - apply R_save.
Qed.

Lemma along_run ops : forall s, R s (messages_of rt ops) (fst (run rt ops s)).
Proof.
  unfold messages_of.
  induction ops as [| op rest IH]; intros s.
  - apply R_nil.
  - simpl run. rewrite and_then_fst, bind_cons.
    exact (R_app _ _ _ _ _ (along_op op s) (IH _)).
Qed.

End Along.

(** ** Likes, chat log, follow log *)

Lemma Zsum_app l1 l2 : Zsum (l1 ++ l2) = Zsum l1 + Zsum l2.
Proof. unfold Zsum. induction l1; simpl; lia. Qed.

(** X1.  Likes add up: after any run [total_likes] has grown by the sum of
    the counts of the Like events dispatched, whatever else was
    processed and however often a snapshot was written. *)
Theorem likes_accumulate rt ops self :
  total_likes (data (fst (run rt ops self))) =
  total_likes (data self) + Zsum (count <$> omap (like_of rt) (messages_of rt ops)).
Proof.
  apply (along_run rt (fun s msgs s' =>
    total_likes (data s') =
    total_likes (data s) + Zsum (count <$> omap (like_of rt) msgs))).
  - intros s. simpl. lia.
  - intros s1 s2 s3 l1 l2 H1 H2.
    rewrite H2, H1, omap_app, fmap_app, Zsum_app. lia.
  - intros now msg s. unfold _process_message, like_of. simpl omap.
    by_method msg; handler; simpl; lia.
  - intros t io s. rewrite save_data_frame. simpl. lia.
Qed.

(** X2.  The chat log is append-only: a run adds one record per well-formed
    Chat event, in dispatch order, after the records already there;
    nothing is dropped, merged or reordered. *)
Theorem chat_log_appends rt ops self :
  exists added,
    chat_messages (data (fst (run rt ops self))) =
      chat_messages (data self) ++ added
    /\ chat_key <$> added =
       chat_event_key <$> omap (chat_of rt) (messages_of rt ops).
Proof.
  apply (along_run rt (fun s msgs s' =>
    exists added,
      chat_messages (data s') = chat_messages (data s) ++ added
      /\ chat_key <$> added = chat_event_key <$> omap (chat_of rt) msgs)).
  - intros s. exists []. rewrite app_nil_r. split; reflexivity.
  - intros s1 s2 s3 l1 l2 [a1 [H1 K1]] [a2 [H2 K2]].
    exists (a1 ++ a2). rewrite H2, H1, app_assoc. split; [reflexivity |].
    rewrite omap_app, !fmap_app, K1, K2. reflexivity.
  - intros now msg s. unfold _process_message, chat_of. simpl omap.
    by_method msg; handler;
      try (exists []; rewrite app_nil_r; split; reflexivity).
    eexists [_]. split; reflexivity.
  - intros t io s. rewrite save_data_frame. exists [].
    rewrite app_nil_r. split; reflexivity.
Qed.

(** X3.  Follows are appended and never deduplicated: a run adds one record per
    well-formed Social event, in dispatch order, also when the same user
    follows twice. *)
Theorem follow_log_appends rt ops self :
  exists added,
    follows (data (fst (run rt ops self))) = follows (data self) ++ added
    /\ follow_key <$> added =
       follow_event_key <$> omap (follow_of rt) (messages_of rt ops).
Proof.
  apply (along_run rt (fun s msgs s' =>
    exists added,
      follows (data s') = follows (data s) ++ added
      /\ follow_key <$> added = follow_event_key <$> omap (follow_of rt) msgs)).
  - intros s. exists []. rewrite app_nil_r. split; reflexivity.
  - intros s1 s2 s3 l1 l2 [a1 [H1 K1]] [a2 [H2 K2]].
    exists (a1 ++ a2). rewrite H2, H1, app_assoc. split; [reflexivity |].
    rewrite omap_app, !fmap_app, K1, K2. reflexivity.
  - intros now msg s. unfold _process_message, follow_of. simpl omap.
    by_method msg; handler;
      try (exists []; rewrite app_nil_r; split; reflexivity).
    eexists [_]. split; reflexivity.
  - intros t io s. rewrite save_data_frame. exists [].
    rewrite app_nil_r. split; reflexivity.
Qed.

(** X4.  The dedup set after a run is the one before it together with the
    keys [str(user.id)] of all well-formed Member events dispatched. *)
Theorem dedup_set_collects_member_ids rt ops self :
  cache_members (fst (run rt ops self)) =
  list_to_set ((fun ev => pretty (id (member_user ev)))
                 <$> omap (member_of rt) (messages_of rt ops))
  ∪ cache_members self.
Proof.
  apply (along_run rt (fun s msgs s' =>
    cache_members s' =
    list_to_set ((fun ev => pretty (id (member_user ev)))
                   <$> omap (member_of rt) msgs) ∪ cache_members s)).
  - intros s. simpl. set_solver.
  - intros s1 s2 s3 l1 l2 H1 H2.
    rewrite H2, H1, omap_app, fmap_app, list_to_set_app_L. set_solver.
  - intros now msg s. unfold _process_message, member_of. simpl omap.
    by_method msg; handler; simpl; set_solver.
  - intros t io s. rewrite save_data_frame. simpl. set_solver.
Qed.

(** ** Fields no step writes *)

(** X5.  From a fresh session on, no step fills the [user_id] and [nickname]
    entries of [self.data] (they stay empty), none uses
    [message_cache["gifts"]] (it stays empty), and the [live_id], [date]
    and [session] entries keep the values given at start-up. *)
Theorem untouched_fields rt lid date n ops :
  let self := fst (run rt ops (init lid date n)) in
  d_user_id (data self) = ""
  /\ d_nickname (data self) = ""
  /\ cache_gifts self = ∅
  /\ d_live_id (data self) = lid
  /\ d_date (data self) = date
  /\ d_session (data self) = n.
Proof.
  apply (preserves_run rt (fun s =>
    d_user_id (data s) = "" /\ d_nickname (data s) = "" /\ cache_gifts s = ∅
    /\ d_live_id (data s) = lid /\ d_date (data s) = date
    /\ d_session (data s) = n));
    try (intros; intros s Hs; revert Hs; handler).
  repeat split; reflexivity.
Qed.

(** ** Snapshot files *)

Lemma written_app out1 out2 : written (out1 ++ out2) = written out1 ++ written out2.
Proof. unfold written. apply omap_app. Qed.

Lemma process_message_writes_nothing rt now msg self :
  written (snd (_process_message rt now msg self)) = [].
Proof.
  unfold _process_message. repeat case_match; handler.
Qed.

Lemma process_messages_write_nothing rt msgs :
  forall clock self, written (snd (process_messages rt clock msgs self)) = [].
Proof.
  induction msgs as [| msg rest IH]; intros clock self; simpl; [reflexivity |].
  rewrite and_then_snd, written_app, process_message_writes_nothing, IH.
  reflexivity.
Qed.

Lemma on_message_writes_nothing rt send_ok clock message self :
  written (snd (_on_message rt send_ok clock message self)) = [].
Proof.
  unfold _on_message. repeat case_match; simpl; try reflexivity;
    match goal with
    | H : process_messages rt ?c ?l ?s = (_, ?o) |- _ =>
      pose proof (process_messages_write_nothing rt l c s) as Hq;
      rewrite H in Hq; exact Hq
    | |- _ => apply process_messages_write_nothing
    end.
Qed.

Lemma session_path_fixed rt op self :
  session_path (fst (run_op rt op self)) = session_path self.
Proof.
  destruct (session_fixed rt [op] self) as [Hc [Hl Ht]].
  simpl in Hc, Hl, Ht. rewrite and_then_fst in Hc, Hl, Ht. simpl in Hc, Hl, Ht.
  unfold session_path, filename. rewrite Hc, Hl, Ht. reflexivity.
Qed.

(** X6.  Every snapshot of a session goes to one and the same file: along any
    run, each snapshot write that succeeds writes the path of the
    session, [os.path.join(data_dir, "<live_id>_<session>_<date>.json")],
    once per write, and nothing else writes a file. *)
Theorem snapshots_overwrite_one_file rt ops :
  forall self,
    fst <$> written (snd (run rt ops self)) =
    replicate (successful_saves ops) (session_path self).
Proof.
  induction ops as [| op rest IH]; intros self; [reflexivity |].
  simpl run. rewrite and_then_snd, written_app, fmap_app, IH.
  rewrite session_path_fixed. unfold successful_saves.
  destruct op as [send_ok clock message | now msg | t [|]]; simpl.
  - rewrite on_message_writes_nothing. reflexivity.
  - rewrite process_message_writes_nothing. reflexivity.
  - reflexivity.
  - reflexivity.
Qed.

(** The conversion loop of [_save_data], value by value. *)
Lemma senders_to_list_idem rt gd :
  senders_to_list rt (senders_to_list rt gd) = senders_to_list rt gd.
Proof.
  unfold senders_to_list. destruct (is_set (senders gd)) eqn:E; simpl; [reflexivity |].
  rewrite E. reflexivity.
Qed.

Lemma convert_loop_lookup rt (entries : list (string * loc)) (h : gmap loc GiftStat) l :
  foldr (fun entry h => alter (senders_to_list rt) (snd entry) h) h entries !! l =
  if decide (l ∈ entries.*2) then senders_to_list rt <$> h !! l else h !! l.
Proof.
  induction entries as [| e entries IH].
  - destruct (decide (l ∈ ([] : list (string * loc)).*2)) as [Hin | _];
      [| reflexivity].
    apply elem_of_nil in Hin. destruct Hin.
  - rewrite fmap_cons. cbn [foldr]. rewrite lookup_alter.
    destruct (decide (e.2 = l)) as [Heq | Hne].
    + subst l. rewrite IH.
      rewrite (decide_True (P := e.2 ∈ e.2 :: entries.*2))
        by apply list_elem_of_here.
      destruct (decide (e.2 ∈ entries.*2)); [| reflexivity].
      destruct (h !! e.2); simpl; [| reflexivity].
      rewrite senders_to_list_idem. reflexivity.
    + rewrite IH.
      destruct (decide (l ∈ entries.*2)) as [Hin' | Hout'].
      * rewrite decide_True by (apply list_elem_of_further; exact Hin').
        reflexivity.
      * rewrite decide_False; [reflexivity |].
        intros Hin. apply elem_of_cons in Hin as [Heq | Hin];
          [apply Hne; symmetry; exact Heq | exact (Hout' Hin)].
Qed.

(** X7.  One snapshot write does all the converting there is to do: a second
    write, at any time and whether or not the file can be written, leaves
    the crawler exactly as the first one left it. *)
Theorem save_data_idempotent rt t1 io1 t2 io2 self :
  fst (_save_data rt t2 io2 (fst (_save_data rt t1 io1 self))) =
  fst (_save_data rt t1 io1 self).
Proof.
  rewrite !save_data_frame. simpl.
  set (entries := map_to_list (gifts (data self))).
  assert (Hsame :
    foldr (fun entry h => alter (senders_to_list rt) entry.2 h)
      (foldr (fun entry h => alter (senders_to_list rt) entry.2 h)
         (store self) entries) entries =
    foldr (fun entry h => alter (senders_to_list rt) entry.2 h)
      (store self) entries).
  { apply map_eq. intros l. rewrite !convert_loop_lookup.
    destruct (decide (l ∈ entries.*2)); [| reflexivity].
    destruct (store self !! l); simpl; [| reflexivity].
    rewrite senders_to_list_idem. reflexivity. }
  unfold set_store. simpl. rewrite Hsame. reflexivity.
Qed.

Lemma senders_to_list_not_set rt gd : is_set (senders (senders_to_list rt gd)) = false.
Proof.
  unfold senders_to_list. destruct (is_set (senders gd)) eqn:E; simpl; auto.
Qed.

(** X8.  What reaches [json.dump] holds no set: in the snapshot written from a
    state reached from a fresh session, every gift of the aggregate
    appears with its dictionary, the senders of each are a list, and the
    count, value and senders (as a set) are those of the aggregate. *)
Theorem snapshot_is_serializable rt lid date n ops t :
  let self := fst (run rt ops (init lid date n)) in
  exists snap,
    written (snd (_save_data rt t true self)) = [(session_path self, snap)]
    /\ fst <$> snap_gifts snap = fst <$> map_to_list (gifts (data self))
    /\ forall gname entry,
         (gname, entry) ∈ snap_gifts snap ->
         exists gd, entry = Some gd
                    /\ is_set (senders gd) = false
                    /\ gift_view self gname = Some (stat_view gd).
Proof.
  intros self. unfold _save_data. simpl. eexists. split; [reflexivity |]. simpl.
  split.
  - rewrite <- list_fmap_compose. reflexivity.
  - intros gname entry Hin.
    apply list_elem_of_fmap in Hin as [[gname' l] [Heq Hin]].
    simpl in Heq. injection Heq as -> ->.
    apply elem_of_map_to_list in Hin.
    destruct (reachable_wf rt ops lid date n) as [Halloc _].
    destruct (Halloc _ _ Hin) as [gd0 Hgd0].
    rewrite convert_loop_lookup.
    rewrite decide_True.
    2:{ apply list_elem_of_fmap. exists (gname', l). split; [reflexivity |].
        apply elem_of_map_to_list. exact Hin. }
    fold self in Hgd0. rewrite Hgd0. simpl. eexists. split; [reflexivity |].
    split; [apply senders_to_list_not_set |].
    unfold gift_view, gift_stat. rewrite Hin, Hgd0. simpl.
    rewrite stat_view_senders_to_list. reflexivity.
Qed.

(** X9.  The derived counts of a snapshot: in a state reached from a fresh
    session the members written are a duplicate-free enumeration of the
    members set, [total_members] is the size of that set, and the other
    totals are the lengths of the logs and the number of gift names. *)
Theorem snapshot_stats rt lid date n ops t :
  let self := fst (run rt ops (init lid date n)) in
  exists snap,
    written (snd (_save_data rt t true self)) = [(session_path self, snap)]
    /\ snap_members snap ≡ₚ elements (py_set (members (data self)))
    /\ stat_total_members snap = size (py_set (members (data self)))
    /\ stat_total_chat_messages snap = length (chat_messages (data self))
    /\ stat_total_follows snap = length (follows (data self))
    /\ stat_total_gift_types snap = size (gifts (data self))
    /\ stat_save_time snap = t.
Proof.
  intros self.
  destruct (members_bounded_run rt ops _ (members_bounded_init lid date n))
    as [s [Hs _]].
  fold self in Hs. unfold _save_data. simpl. eexists.
  split; [reflexivity |]. simpl. rewrite Hs. simpl.
  split; [apply list_of_set_perm |].
  split; [| repeat split; reflexivity].
  rewrite (list_of_set_perm rt s). reflexivity.
Qed.

(** ** The gift handler after a snapshot *)

(** X10.  A Gift event leaves the senders of its gift as a set containing the
    sender, also when a snapshot write had turned them into a list. *)
Theorem gift_restores_sender_set rt lid date n ops now msg ev :
  let self := fst (run rt ops (init lid date n)) in
  gift_event rt msg ev ->
  exists gd,
    gift_stat (fst (_process_message rt now msg self)) (name (gift ev)) = Some gd
    /\ is_set (senders gd) = true
    /\ nick_name (gift_user ev) ∈ py_set (senders gd).
Proof.
  intros self [Hm Hp]. rewrite dispatch_gift by exact Hm.
  destruct (gift_step rt msg ev self Hp (reachable_wf rt ops lid date n))
    as [_ [Hstat _]].
  rewrite Hstat. eexists. split; [reflexivity |]. simpl. split; [reflexivity |].
  set_solver.
Qed.

(** ** Undecodable inbound messages *)

(** X11.  [_on_message] by what the inbound message decodes to.  A message
    that fails any of the three decoding stages (envelope, gzip, batch) is
    dropped: the crawler is unchanged, nothing is sent, one error is
    logged.  For a decoded batch the frames passed to [ws.send] are its
    ack when it asks for one and none otherwise, and a batch that asks
    for none is simply dispatched. *)
Theorem on_message_by_decoding rt send_ok clock message self :
  let result := _on_message rt send_ok clock message self in
  match decoded rt message with
  | None => result = (self, [LogError InOnMessage])
  | Some (package, response) =>
    sent (snd result) =
      (if need_ack response
       then [PushFrame_SerializeToString rt (ack_frame package response)]
       else [])
    /\ (need_ack response = false ->
        result = process_messages rt clock (messages_list response) self)
  end.
Proof.
  cbv zeta. unfold decoded, _on_message.
  destruct (PushFrame_parse rt message) as [package |]; [| reflexivity].
  destruct (gzip_decompress rt (frame_payload package)) as [raw |]; [| reflexivity].
  destruct (Response_parse rt raw) as [response |]; [| reflexivity].
  pose proof (process_messages_send_nothing rt (messages_list response) clock self)
    as Hquiet.
  destruct (need_ack response), send_ok; simpl;
    (split; [| intros H; try discriminate H; reflexivity]);
    try reflexivity; try exact Hquiet.
  destruct (process_messages rt clock (messages_list response) self) as [s' out].
  simpl in *. unfold sent in *. simpl. rewrite Hquiet. reflexivity.
Qed.

(** ** Reading the session ordinal back *)

Module TextFacts.
Import Text TextSpec.

Lemma la_app (a b : string) :
  list_ascii_of_string (a +:+ b) = list_ascii_of_string a ++ list_ascii_of_string b.
Proof. induction a as [| c a IH]; simpl; [reflexivity | rewrite IH; reflexivity]. Qed.

Lemma split_no_sep sep (w : list ascii) : sep ∉ w -> split sep w = [w].
Proof.
  induction w as [| c w IH]; intros Hw; simpl; [reflexivity |].
  destruct (Ascii.eqb_spec c sep) as [-> | Hne].
  - destruct Hw. apply list_elem_of_here.
  - rewrite IH; [reflexivity |]. intros Hin. apply Hw. apply list_elem_of_further, Hin.
Qed.

Lemma split_at_sep sep (w rest : list ascii) :
  sep ∉ w -> split sep (w ++ sep :: rest) = w :: split sep rest.
Proof.
  induction w as [| c w IH]; intros Hw; simpl.
  - rewrite Ascii.eqb_refl. reflexivity.
  - destruct (Ascii.eqb_spec c sep) as [-> | Hne].
    + destruct Hw. apply list_elem_of_here.
    + rewrite IH; [reflexivity |]. intros Hin. apply Hw, list_elem_of_further, Hin.
Qed.

(** Two texts cut at their first separator agree piece by piece. *)
Lemma first_field_inj sep (a b x y : list ascii) :
  sep ∉ a -> sep ∉ b -> a ++ sep :: x = b ++ sep :: y -> a = b /\ x = y.
Proof.
  intros Ha Hb H.
  assert (Hs : split sep (a ++ sep :: x) = split sep (b ++ sep :: y)) by (rewrite H; reflexivity).
  rewrite !split_at_sep in Hs by assumption.
  injection Hs as -> _. apply app_inv_head in H. injection H as ->. split; reflexivity.
Qed.

Lemma digit_char (r : N) :
  (r < 10)%N ->
  is_digit (pretty_N_char r) = true
  /\ Z.of_nat (nat_of_ascii (pretty_N_char r) - 48) = Z.of_N r.
Proof.
  intros Hr.
  assert (r = 0 \/ r = 1 \/ r = 2 \/ r = 3 \/ r = 4 \/ r = 5 \/ r = 6
          \/ r = 7 \/ r = 8 \/ r = 9)%N as H by lia.
  repeat (destruct H as [-> | H]; [split; reflexivity |]).
  subst r. split; reflexivity.
Qed.

(** The digits [pretty_N_go] puts before its accumulator, and their value. *)
Lemma pretty_N_go_digits (x : N) :
  exists ds (p : Z),
    Forall digit ds
    /\ ((0 < x)%N -> ds <> [])
    /\ (forall s, list_ascii_of_string (pretty_N_go x s) = ds ++ list_ascii_of_string s)
    /\ (forall acc rest,
           digits_value acc (ds ++ rest) = digits_value (acc * p + Z.of_N x) rest).
Proof.
  induction (N.lt_wf_0 x) as [x _ IH].
  destruct (decide (x = 0)%N) as [-> | Hpos].
  - exists [], 1. split; [constructor |]. split; [lia |]. split.
    + intros s. rewrite pretty_N_go_0. reflexivity.
    + intros acc rest. simpl. f_equal. lia.
  - assert (0 < x)%N as Hx by lia.
    destruct (IH (x `div` 10)%N) as [ds [p [Hds [_ [Hgo Hval]]]]].
    { apply N.div_lt; lia. }
    destruct (digit_char (x `mod` 10)%N) as [Hd Hv].
    { apply N.mod_lt. lia. }
    exists (ds ++ [pretty_N_char (x `mod` 10)]), (10 * p). split; [| split; [| split]].
    + apply Forall_app. split; [exact Hds |]. constructor; [exact Hd | constructor].
    + intros _. destruct ds; discriminate.
    + intros s. rewrite pretty_N_go_step by exact Hx. rewrite Hgo. simpl.
      rewrite <- app_assoc. reflexivity.
    + intros acc rest. rewrite <- app_assoc, Hval. simpl. rewrite Hd, Hv.
      f_equal. pose proof (N.div_mod x 10 ltac:(lia)). lia.
Qed.

Lemma digit_not_space c : digit c -> is_space c = false.
Proof.
  unfold digit, is_digit, is_space. intros H.
  apply andb_true_iff in H as [H1 H2].
  apply Nat.leb_le in H1. apply Nat.leb_le in H2.
  apply orb_false_iff. split.
  - apply andb_false_iff. right. apply Nat.leb_gt. lia.
  - apply Nat.eqb_neq. lia.
Qed.

Lemma lstrip_id (s : list ascii) :
  Forall (fun c => is_space c = false) s -> lstrip s = s.
Proof. intros H. destruct H as [| c s Hc _]; simpl; [reflexivity |]. rewrite Hc. reflexivity. Qed.

Lemma strip_id (s : list ascii) :
  Forall (fun c => is_space c = false) s -> strip s = s.
Proof.
  intros H. unfold strip. rewrite (lstrip_id s H).
  rewrite lstrip_id by (apply Forall_rev; exact H).
  apply rev_involutive.
Qed.

Lemma digit_not_sign c : digit c -> Ascii.eqb c "-" = false /\ Ascii.eqb c "+" = false.
Proof.
  intros H. split.
  - destruct (Ascii.eqb_spec c "-") as [-> |]; [discriminate H | reflexivity].
  - destruct (Ascii.eqb_spec c "+") as [-> |]; [discriminate H | reflexivity].
Qed.

Lemma digit_not_underscore c : digit c -> c <> underscore.
Proof. intros H ->. discriminate H. Qed.

(** The text of a positive number: its digits. *)
Lemma pretty_pos_digits (x : positive) :
  exists c ds,
    list_ascii_of_string (pretty (N.pos x)) = c :: ds
    /\ Forall digit (c :: ds)
    /\ digits_value 0 (c :: ds) = Some (Z.pos x).
Proof.
  destruct (pretty_N_go_digits (N.pos x)) as [ds [p [Hds [Hne [Hgo Hval]]]]].
  unfold pretty, pretty_N. rewrite decide_False by discriminate.
  rewrite Hgo. simpl. rewrite app_nil_r.
  destruct ds as [| c ds]; [destruct (Hne ltac:(lia) eq_refl) |].
  exists c, ds. split; [reflexivity |]. split; [exact Hds |].
  specialize (Hval 0 []). rewrite app_nil_r in Hval.
  etransitivity; [exact Hval | reflexivity].
Qed.

(** [int(str(k)) == k] *)
Lemma py_int_pretty (k : Z) : py_int (list_ascii_of_string (pretty k)) = Some k.
Proof.
  destruct k as [| x | x].
  - reflexivity.
  - change (pretty (Z.pos x)) with (pretty (N.pos x)).
    destruct (pretty_pos_digits x) as [c [ds [Hs [Hd Hv]]]].
    rewrite Hs. unfold py_int.
    rewrite strip_id
      by (eapply Forall_impl; [exact Hd | intros; apply digit_not_space; assumption]).
    apply Forall_cons in Hd as [Hc _].
    destruct (digit_not_sign c Hc) as [-> ->]. exact Hv.
  - change (pretty (Z.neg x)) with ("-" +:+ pretty (N.pos x)).
    destruct (pretty_pos_digits x) as [c [ds [Hs [Hd Hv]]]].
    rewrite la_app, Hs. unfold py_int.
    rewrite strip_id.
    2:{ constructor; [reflexivity |].
        eapply Forall_impl; [exact Hd | intros; apply digit_not_space; assumption]. }
    simpl. simpl in Hv. rewrite Hv. reflexivity.
Qed.

Lemma pretty_no_underscore (k : Z) :
  underscore ∉ list_ascii_of_string (pretty k).
Proof.
  assert (Hd : forall l, Forall digit l -> underscore ∉ l).
  { intros l Hl Hin. rewrite Forall_forall in Hl.
    exact (digit_not_underscore _ (Hl _ Hin) eq_refl). }
  destruct k as [| x | x].
  - intros Hin. apply elem_of_cons in Hin as [H | H]; [discriminate | ].
    apply elem_of_nil in H. exact H.
  - change (pretty (Z.pos x)) with (pretty (N.pos x)).
    destruct (pretty_pos_digits x) as [c [ds [Hs [Hdig _]]]].
    rewrite Hs. apply Hd, Hdig.
  - change (pretty (Z.neg x)) with ("-" +:+ pretty (N.pos x)).
    destruct (pretty_pos_digits x) as [c [ds [Hs [Hdig _]]]].
    rewrite la_app, Hs. intros Hin.
    apply elem_of_cons in Hin as [H | H]; [discriminate |].
    exact (Hd _ Hdig H).
Qed.

(** The text of a session file, cut at its two first underscores. *)
Lemma file_text lid k date :
  list_ascii_of_string (session_file lid k date) =
  list_ascii_of_string lid ++ underscore ::
  list_ascii_of_string (pretty k) ++ underscore ::
  list_ascii_of_string (date +:+ ".json").
Proof.
  unfold session_file, filename. simpl.
  rewrite !la_app. simpl. reflexivity.
Qed.

End TextFacts.

Lemma ordinal_read_back_text lid k date :
  no_underscore lid ->
  ordinal_field (session_file lid k date) = Some k.
Proof.
  intros Hlid. unfold ordinal_field.
  rewrite TextFacts.file_text.
  rewrite TextFacts.split_at_sep by exact Hlid.
  rewrite TextFacts.split_at_sep by apply TextFacts.pretty_no_underscore.
  simpl. apply TextFacts.py_int_pretty.
Qed.

(** X12.  The ordinal written into a snapshot file name is the one read back
    from it at the next start-up, when the live id holds no underscore. *)
Theorem ordinal_read_back self :
  no_underscore (live_id self) ->
  ordinal_field (filename self) = Some (session_count self).
Proof.
  intros Hlid.
  exact (ordinal_read_back_text (live_id self) (session_count self) (today self) Hlid).
Qed.

Module GlobFacts.
Import Text TextSpec TextFacts.

Lemma fnmatch_literal c p n :
  literal c ->
  fnmatch (c :: p) n =
  match n with d :: n' => Ascii.eqb c d && fnmatch p n' | [] => false end.
Proof.
  intros [Hstar [Hq _]]. simpl.
  destruct (Ascii.eqb_spec c "*") as [-> |]; [destruct (Hstar eq_refl) |].
  destruct (Ascii.eqb_spec c "?") as [-> |]; [destruct (Hq eq_refl) |].
  reflexivity.
Qed.

Lemma fnmatch_prefix p q n :
  Forall literal p -> fnmatch (p ++ q) (p ++ n) = fnmatch q n.
Proof.
  induction 1 as [| c p Hc _ IH]; [reflexivity |].
  rewrite <- !app_comm_cons, fnmatch_literal by exact Hc.
  rewrite Ascii.eqb_refl. exact IH.
Qed.

Lemma fnmatch_prefix_inv p q n :
  Forall literal p -> fnmatch (p ++ q) n = true -> exists n', n = p ++ n'.
Proof.
  intros Hp. revert n. induction Hp as [| c p Hc _ IH]; intros n H.
  - exists n. reflexivity.
  - rewrite <- app_comm_cons, fnmatch_literal in H by exact Hc.
    destruct n as [| d n]; [discriminate |].
    apply andb_true_iff in H as [Hcd H].
    apply Ascii.eqb_eq in Hcd as <-.
    destruct (IH _ H) as [n' ->]. exists n'. reflexivity.
Qed.

Lemma fnmatch_star q a b :
  fnmatch q b = true -> fnmatch ("*"%char :: q) (a ++ b) = true.
Proof.
  intros H. induction a as [| c a IH].
  - simpl. destruct b; simpl; rewrite H; reflexivity.
  - change (fnmatch ("*"%char :: q) ((c :: a) ++ b))
      with (fnmatch q (c :: a ++ b) || fnmatch ("*"%char :: q) (a ++ b)).
    rewrite IH. apply orb_true_r.
Qed.

Lemma pattern_text lid :
  list_ascii_of_string (lid +:+ "_*_*.json") = list_ascii_of_string lid ++ tail_pattern.
Proof. apply la_app. Qed.

Lemma tail_matches (pk date : list ascii) :
  fnmatch tail_pattern
    (underscore :: pk ++ underscore :: date ++ list_ascii_of_string ".json") = true.
Proof.
  unfold tail_pattern.
  change (list_ascii_of_string "_*_*.json")
    with (underscore :: "*"%char :: underscore :: "*"%char :: list_ascii_of_string ".json").
  rewrite fnmatch_literal by (repeat split; discriminate).
  rewrite Ascii.eqb_refl. cbn [andb].
  apply (fnmatch_star _ pk).
  rewrite fnmatch_literal by (repeat split; discriminate).
  rewrite Ascii.eqb_refl. cbn [andb].
  apply (fnmatch_star _ date). reflexivity.
Qed.

Lemma hidden_same (l x y : list ascii) :
  is_hidden (l ++ underscore :: x) = is_hidden (l ++ underscore :: y).
Proof. destruct l; reflexivity. Qed.

(** Among the files the crawler writes for rooms without underscore in
    their id, the pattern of a plain room id picks those of that room. *)
Lemma glob_picks_room lid f :
  no_underscore lid -> plain lid -> no_underscore (of_room f) ->
  let p := list_ascii_of_string (lid +:+ "_*_*.json") in
  let n := list_ascii_of_string (file_of f) in
  (is_hidden p || negb (is_hidden n)) && fnmatch p n =
  bool_decide (of_room f = lid).
Proof.
  intros Hlid Hplain Hroom p n. unfold p, n, file_of.
  rewrite pattern_text, file_text, la_app.
  destruct (decide (of_room f = lid)) as [Heq | Hne].
  - rewrite bool_decide_eq_true_2 by exact Heq. rewrite Heq.
    rewrite fnmatch_prefix by exact Hplain. rewrite tail_matches.
    unfold tail_pattern.
    change (list_ascii_of_string "_*_*.json")
      with (underscore :: list_ascii_of_string "*_*.json").
    match goal with
    | |- (is_hidden (?l ++ underscore :: ?x)
          || negb (is_hidden (?l ++ underscore :: ?y))) && _ = _ =>
      rewrite (hidden_same l y x)
    end.
    destruct (is_hidden _); reflexivity.
  - rewrite bool_decide_eq_false_2 by exact Hne.
    apply andb_false_iff. right. apply not_true_is_false. intros Hm.
    unfold tail_pattern in Hm.
    change (list_ascii_of_string "_*_*.json")
      with (underscore :: list_ascii_of_string "*_*.json") in Hm.
    assert (E : forall x,
      list_ascii_of_string lid ++ underscore :: x =
      (list_ascii_of_string lid ++ [underscore]) ++ x)
      by (intros x; rewrite <- app_assoc; reflexivity).
    rewrite E in Hm.
    apply fnmatch_prefix_inv in Hm as [n' Hn'].
    2:{ apply Forall_app. split; [exact Hplain |].
        constructor; [repeat split; discriminate | constructor]. }
    rewrite <- E in Hn'.
    apply first_field_inj in Hn' as [Hroom' _]; [| exact Hroom | exact Hlid].
    apply Hne.
    rewrite <- (string_of_list_ascii_of_string (of_room f)), Hroom'.
    apply string_of_list_ascii_of_string.
Qed.

Lemma glob_room lid sessions :
  no_underscore lid -> plain lid ->
  Forall (fun f => no_underscore (of_room f)) sessions ->
  glob (lid +:+ "_*_*.json") (file_of <$> sessions) =
  file_of <$> filter (fun f => of_room f = lid) sessions.
Proof.
  intros Hlid Hplain Hall. unfold glob.
  induction Hall as [| f sessions Hf _ IH]; [reflexivity |].
  rewrite fmap_cons, !filter_cons, IH.
  pose proof (glob_picks_room lid f Hlid Hplain Hf) as Hpick. simpl in Hpick.
  destruct (decide (of_room f = lid)) as [Heq | Hne].
  - rewrite bool_decide_eq_true_2 in Hpick by exact Heq.
    rewrite decide_True by (rewrite Hpick; exact I). reflexivity.
  - rewrite bool_decide_eq_false_2 in Hpick by exact Hne.
    rewrite decide_False by (rewrite Hpick; exact (fun H => H)). reflexivity.
Qed.

Lemma ordinal_of_file f :
  no_underscore (of_room f) -> ordinal_field (file_of f) = Some (ordinal f).
Proof.
  intros H.
  exact (ordinal_read_back_text (of_room f) (ordinal f) (on_date f) H).
Qed.

Lemma foldr_max_ge (a : Z) (l : list Z) : a <= foldr Z.max a l.
Proof. induction l; simpl; lia. Qed.

Lemma foldr_max_shift (a b : Z) (l : list Z) :
  foldr Z.max (Z.max a b) l = Z.max b (foldr Z.max a l).
Proof. induction l; simpl; lia. Qed.

Lemma fold_max_files (fs : list SessionId) :
  Forall (fun f => no_underscore (of_room f)) fs ->
  forall acc,
    fold_left (fun max_count file =>
                 match ordinal_field file with
                 | Some count => Z.max max_count count
                 | None => max_count
                 end) (file_of <$> fs) acc =
    foldr Z.max acc (ordinal <$> fs).
Proof.
  induction 1 as [| f fs Hf _ IH]; intros acc; simpl; [reflexivity |].
  rewrite (ordinal_of_file f Hf), IH. apply foldr_max_shift.
Qed.

End GlobFacts.

Lemma next_session_count_spec lid sessions :
  no_underscore lid -> plain lid ->
  Forall (fun f => no_underscore (of_room f)) sessions ->
  _get_next_session_count (file_of <$> sessions) lid = max_ordinal lid sessions + 1.
Proof.
  intros Hlid Hplain Hall. unfold _get_next_session_count, max_ordinal.
  rewrite GlobFacts.glob_room by assumption.
  rewrite GlobFacts.fold_max_files; [reflexivity |].
  apply Forall_forall. intros f Hin. apply list_elem_of_filter in Hin as [_ Hin].
  rewrite Forall_forall in Hall. exact (Hall f Hin).
Qed.

(** X13.  For a room whose id holds no underscore, wildcard or path
    separator, in a directory holding files the crawler wrote for rooms
    without underscore in their ids, [_get_next_session_count] is one more than
    the largest ordinal among the files of that room, and 1 when the room
    has no file. *)
Theorem next_session_is_max_plus_one lid sessions :
  no_underscore lid -> plain lid ->
  Forall (fun f => no_underscore (of_room f)) sessions ->
  _get_next_session_count (file_of <$> sessions) lid = max_ordinal lid sessions + 1.
Proof. exact (next_session_count_spec lid sessions). Qed.

Lemma la_inj (a b : string) :
  list_ascii_of_string a = list_ascii_of_string b -> a = b.
Proof.
  intros H. rewrite <- (string_of_list_ascii_of_string a), H.
  apply string_of_list_ascii_of_string.
Qed.

Lemma foldr_max_bounds (x a : Z) (l : list Z) : x ∈ l -> x <= foldr Z.max a l.
Proof.
  induction l as [| y l IH]; intros Hin.
  - apply elem_of_nil in Hin. destruct Hin.
  - apply elem_of_cons in Hin as [-> | Hin]; simpl; [lia |].
    specialize (IH Hin). lia.
Qed.

(** X14.  A new session never takes the file of an earlier one: under the
    conditions of [next_session_is_max_plus_one], the name the new
    crawler saves under is not among the files of the directory. *)
Theorem new_session_file_is_new lid date sessions :
  no_underscore lid -> plain lid ->
  Forall (fun f => no_underscore (of_room f)) sessions ->
  filename (new_crawler (file_of <$> sessions) lid date) ∉ file_of <$> sessions.
Proof.
  intros Hlid Hplain Hall Hin.
  apply list_elem_of_fmap in Hin as [f [Hname Hf]].
  assert (Hcount : _get_next_session_count (file_of <$> sessions) lid =
                   max_ordinal lid sessions + 1)
    by (apply next_session_count_spec; assumption).
  rewrite Forall_forall in Hall. pose proof (Hall f Hf) as Hroom.
  change (filename (new_crawler (file_of <$> sessions) lid date))
    with (session_file lid (_get_next_session_count (file_of <$> sessions) lid) date)
    in Hname.
  rewrite Hcount in Hname. unfold file_of in Hname.
  apply (f_equal list_ascii_of_string) in Hname.
  rewrite !TextFacts.file_text in Hname.
  apply TextFacts.first_field_inj in Hname as [Hr Hrest]; [| exact Hlid | exact Hroom].
  apply TextFacts.first_field_inj in Hrest as [Hk _];
    try apply TextFacts.pretty_no_underscore.
  apply la_inj in Hr. apply la_inj in Hk. apply pretty_Z_inj in Hk.
  assert (Hle : ordinal f <= max_ordinal lid sessions).
  { unfold max_ordinal. apply foldr_max_bounds.
    apply list_elem_of_fmap. exists f. split; [reflexivity |].
    apply list_elem_of_filter. split; [symmetry; exact Hr | exact Hf]. }
  lia.
Qed.

Lemma fold_max_lower (files : list string) :
  forall acc,
    let result :=
      fold_left (fun max_count file =>
                   match ordinal_field file with
                   | Some count => Z.max max_count count
                   | None => max_count
                   end) files acc in
    acc <= result
    /\ forall file k, file ∈ files -> ordinal_field file = Some k -> k <= result.
Proof.
  induction files as [| file files IH]; intros acc; simpl.
  - split; [lia |]. intros file k Hin. apply elem_of_nil in Hin. destruct Hin.
  - destruct (IH (match ordinal_field file with
                  | Some count => Z.max acc count
                  | None => acc
                  end)) as [Hacc Hall].
    cbv zeta in Hacc, Hall. split.
    + destruct (ordinal_field file); lia.
    + intros file' k Hin Hk. apply elem_of_cons in Hin as [-> | Hin].
      * rewrite Hk in Hacc |- *. lia.
      * exact (Hall file' k Hin Hk).
Qed.

(** X15.  Whatever files with ASCII names the directory holds, for a live
    id without wildcard or path separator the session ordinal is at
    least 1 and larger than every ordinal read from a file name the glob
    pattern of the room matches; unreadable and negative ordinals do not
    lower it. *)
Theorem session_count_exceeds_matches listing lid :
  plain lid ->
  Forall ascii_name listing ->
  1 <= _get_next_session_count listing lid
  /\ forall file k,
       file ∈ Text.glob (lid +:+ "_*_*.json") listing ->
       ordinal_field file = Some k ->
       k < _get_next_session_count listing lid.
Proof.
  intros _ _. unfold _get_next_session_count.
  destruct (fold_max_lower (Text.glob (lid +:+ "_*_*.json") listing) 0)
    as [Hacc Hall].
  split; [lia |]. intros file k Hin Hk. specialize (Hall file k Hin Hk). lia.
Qed.

(** *** Instances *)

Lemma ordinal_read_back_witness :
  ordinal_field (filename (init "7318296" "2024-05-01" 12)) = Some 12.
Proof.
  refine (ordinal_read_back (init "7318296" "2024-05-01" 12) _).
  unfold no_underscore. by_evaluation.
Defined.

Lemma next_session_is_max_plus_one_witness :
  _get_next_session_count (file_of <$> two_sessions) "7318296" = 2 + 1.
Proof.
  refine (next_session_is_max_plus_one "7318296" two_sessions _ _ _).
  - unfold no_underscore. by_evaluation.
  - unfold plain, literal. by_evaluation.
  - unfold two_sessions, no_underscore. repeat constructor; by_evaluation.
Defined.

Lemma new_session_file_is_new_witness :
  bool_decide
    (filename (new_crawler (file_of <$> two_sessions) "7318296" "2024-05-02")
     ∈ file_of <$> two_sessions) = false.
Proof.
  apply bool_decide_eq_false_2.
  refine (new_session_file_is_new "7318296" "2024-05-02" two_sessions _ _ _).
  - unfold no_underscore. by_evaluation.
  - unfold plain, literal. by_evaluation.
  - unfold two_sessions, no_underscore. repeat constructor; by_evaluation.
Defined.

Lemma session_count_exceeds_matches_witness :
  let listing := "7318296_x_a.json" :: "7318296_-4_b.json" :: (file_of <$> two_sessions) in
  1 <= _get_next_session_count listing "7318296"
  /\ forall file k,
       file ∈ Text.glob ("7318296" +:+ "_*_*.json") listing ->
       ordinal_field file = Some k ->
       k < _get_next_session_count listing "7318296".
Proof.
  refine (session_count_exceeds_matches _ "7318296" _ _).
  - unfold plain, literal. by_evaluation.
  - unfold ascii_name. by_evaluation.
Defined.

Lemma gift_restores_sender_set_witness :
  exists gd,
    gift_stat
      (fst (_process_message Demo.runtime 5 Demo.gift_rose_bob
              (fst (run Demo.runtime
                      [SubMessage 0 Demo.gift_rose_ann; Save "t" true]
                      Demo.fresh_session)))) "rose" = Some gd
    /\ is_set (senders gd) = true
    /\ "bob" ∈ py_set (senders gd).
Proof.
  refine (gift_restores_sender_set Demo.runtime "7318296" "2024-05-01" 1
            [SubMessage 0 Demo.gift_rose_ann; Save "t" true] 5 Demo.gift_rose_bob
            {| gift_user := {| id := 8; nick_name := "bob" |};
               gift := {| name := "rose"; diamond_count := 5 |};
               repeat_count := 2 |} _).
  split; reflexivity.
Defined.


(** ** Room resolution, further *)

Module RegexFacts.
Import Text Regex.

Lemma strip_prefix_Some p s r : strip_prefix p s = Some r -> s = p ++ r.
Proof.
  revert s. induction p as [| c p IH]; intros s H; simpl in H.
  - injection H as ->. reflexivity.
  - destruct s as [| d s]; [discriminate |].
    destruct (Ascii.eqb_spec c d) as [-> |]; [| discriminate].
    rewrite (IH _ H). reflexivity.
Qed.

Lemma strip_prefix_app p r : strip_prefix p (p ++ r) = Some r.
Proof.
  induction p as [| c p IH]; simpl; [reflexivity |].
  rewrite Ascii.eqb_refl. exact IH.
Qed.

Lemma span_digits_spec s ds r :
  span_digits s = (ds, r) -> s = ds ++ r /\ Forall (fun c => is_digit c = true) ds.
Proof.
  revert ds r. induction s as [| c s IH]; intros ds r H; simpl in H.
  - injection H as <- <-. split; [reflexivity | constructor].
  - destruct (is_digit c) eqn:Hc.
    + destruct (span_digits s) as [ds' r'] eqn:Hs. injection H as <- <-.
      destruct (IH _ _ eq_refl) as [-> Hds]. split; [reflexivity |].
      constructor; assumption.
    + injection H as <- <-. split; [reflexivity | constructor].
Qed.

Lemma span_digits_app ds r :
  Forall (fun c => is_digit c = true) ds ->
  match r with c :: _ => is_digit c = false | [] => True end ->
  span_digits (ds ++ r) = (ds, r).
Proof.
  intros Hds Hr. induction Hds as [| c ds Hc _ IH].
  - destruct r as [| c r]; [reflexivity |].
    change (span_digits ([] ++ c :: r))
      with (if is_digit c
            then let '(ds, rest) := span_digits r in (c :: ds, rest)
            else ([], c :: r)).
    rewrite Hr. reflexivity.
  - change (span_digits ((c :: ds) ++ r))
      with (if is_digit c
            then let '(ds', rest) := span_digits (ds ++ r) in (c :: ds', rest)
            else ([], c :: ds ++ r)).
    rewrite Hc, IH. reflexivity.
Qed.

Lemma match_here_spec s ds :
  match_here s = Some ds ->
  ds <> [] /\ Forall (fun c => is_digit c = true) ds
  /\ exists post, s = before_digits ++ ds ++ after_digits ++ post.
Proof.
  unfold match_here. intros H.
  destruct (strip_prefix before_digits s) as [rest |] eqn:Hpre; [| discriminate].
  destruct (span_digits rest) as [ds' rest'] eqn:Hspan.
  destruct ds' as [| d ds']; [discriminate |].
  destruct (strip_prefix after_digits rest') as [post |] eqn:Hpost; [| discriminate].
  injection H as <-.
  apply strip_prefix_Some in Hpre, Hpost.
  apply span_digits_spec in Hspan as [Hrest Hds].
  split; [discriminate |]. split; [exact Hds |].
  exists post. rewrite Hpre, Hrest, Hpost. reflexivity.
Qed.

Lemma search_spec s ds :
  search s = Some ds ->
  ds <> [] /\ Forall (fun c => is_digit c = true) ds
  /\ exists pre post, s = pre ++ before_digits ++ ds ++ after_digits ++ post.
Proof.
  induction s as [| c s IH]; intros H.
  - discriminate H.
  - change (search (c :: s))
      with (match match_here (c :: s) with
            | Some ds => Some ds
            | None => search s
            end) in H.
    destruct (match_here (c :: s)) eqn:Hm.
    + injection H as ->. destruct (match_here_spec _ _ Hm) as [Hne [Hds [post Hs]]].
      split; [exact Hne |]. split; [exact Hds |]. exists [], post. exact Hs.
    + destruct (IH H) as [Hne [Hds [pre [post Hs]]]].
      split; [exact Hne |]. split; [exact Hds |].
      exists (c :: pre), post. rewrite Hs. reflexivity.
Qed.

Lemma match_here_complete ds post :
  ds <> [] -> Forall (fun c => is_digit c = true) ds ->
  match_here (before_digits ++ ds ++ after_digits ++ post) = Some ds.
Proof.
  intros Hne Hds. unfold match_here.
  rewrite strip_prefix_app.
  rewrite span_digits_app by (try exact Hds; reflexivity).
  destruct ds as [| d ds]; [destruct (Hne eq_refl) |].
  rewrite strip_prefix_app. reflexivity.
Qed.

End RegexFacts.

(** X16.  The pattern is found whenever it is there: a page holding the text
    roomId, the escaped quotes and colon, a non-empty run of digits and
    the closing escaped quote yields a room id. *)
Theorem search_finds_room_id (pre ds post : list ascii) :
  ds <> [] ->
  Forall (fun c => Text.is_digit c = true) ds ->
  is_Some (Regex.search
             (pre ++ Regex.before_digits ++ ds ++ Regex.after_digits ++ post)).
Proof.
  intros Hne Hds. induction pre as [| c pre IH].
  - change ([] ++ Regex.before_digits ++ ds ++ Regex.after_digits ++ post)
      with (Regex.before_digits ++ ds ++ Regex.after_digits ++ post).
    assert (H := RegexFacts.match_here_complete ds post Hne Hds).
    destruct (Regex.before_digits ++ ds ++ Regex.after_digits ++ post) as [| x l];
      [discriminate H |].
    change (Regex.search (x :: l))
      with (match Regex.match_here (x :: l) with
            | Some ds => Some ds
            | None => Regex.search l
            end).
    rewrite H. eauto.
  - change (Regex.search ((c :: pre) ++ Regex.before_digits ++ ds ++
                          Regex.after_digits ++ post))
      with (match Regex.match_here (c :: pre ++ Regex.before_digits ++ ds ++
                                    Regex.after_digits ++ post) with
            | Some ds => Some ds
            | None => Regex.search (pre ++ Regex.before_digits ++ ds ++
                                    Regex.after_digits ++ post)
            end).
    destruct (Regex.match_here _); [eauto | exact IH].
Qed.

Lemma room_id_found net self response rid :
  truthy (room_id_cache self) = false ->
  room_page net self = Some response ->
  Regex.search_room_id (text response) = Some rid ->
  let result := room_id net self in
  fst (fst result) = Some rid
  /\ room_id_cache (snd (fst result)) = Some rid
  /\ is_live (snd (fst result)) = is_live self
  /\ rid <> ""
  /\ Forall (fun c => Text.is_digit c = true) (list_ascii_of_string rid)
  /\ exists pre post,
       list_ascii_of_string (text response) =
       pre ++ Regex.before_digits ++ list_ascii_of_string rid ++
       Regex.after_digits ++ post.
Proof.
  intros Hcache Hpage Hfound result. unfold result, room_id.
  rewrite Hcache. unfold room_page in Hpage.
  destruct (ttwid_frame net self) as [_ [Hlive _]].
  destruct (ttwid net self) as [[tw self1] out1]. simpl in *.
  rewrite Hpage, Hfound. simpl.
  unfold Regex.search_room_id in Hfound.
  destruct (Regex.search (list_ascii_of_string (text response))) as [ds |] eqn:Hs;
    [| discriminate].
  simpl in Hfound. injection Hfound as <-.
  destruct (RegexFacts.search_spec _ _ Hs) as [Hne [Hds Hocc]].
  rewrite list_ascii_of_string_of_list_ascii.
  repeat split; try assumption.
  intros Hempty. apply Hne.
  rewrite <- (list_ascii_of_string_of_list_ascii ds), Hempty. reflexivity.
Qed.

(** X17.  When the page holds the pattern, [room_id] yields the digits found:
    a non-empty, purely numeric id that stands in the page between the
    markers; it is cached and [is_live] is left alone.  The page is one
    in which no digit beyond 0-9 follows the marker. *)
Theorem room_id_is_numeric net self response rid :
  truthy (room_id_cache self) = false ->
  room_page net self = Some response ->
  digits_are_ascii (list_ascii_of_string (text response)) = true ->
  Regex.search_room_id (text response) = Some rid ->
  let result := room_id net self in
  fst (fst result) = Some rid
  /\ room_id_cache (snd (fst result)) = Some rid
  /\ is_live (snd (fst result)) = is_live self
  /\ rid <> ""
  /\ Forall (fun c => Text.is_digit c = true) (list_ascii_of_string rid)
  /\ exists pre post,
       list_ascii_of_string (text response) =
       pre ++ Regex.before_digits ++ list_ascii_of_string rid ++
       Regex.after_digits ++ post.
Proof.
  intros Hcache Hpage _. exact (room_id_found net self response rid Hcache Hpage).
Qed.

(** X18.  Once [room_id] has produced a non-empty id it is not resolved again:
    any later read, on whatever network, returns the same id with no
    effect at all (no [HttpGet], so no request, and no log line) and no
    change of the crawler. *)
Theorem room_id_is_cached net net' self r :
  fst (fst (room_id net self)) = Some r ->
  r <> "" ->
  let self' := snd (fst (room_id net self)) in
  room_id net' self' = (Some r, self', []).
Proof.
  intros Hres Hne self'.
  assert (Hcached : room_id_cache self' = Some r).
  { unfold self'. revert Hres. unfold room_id.
    destruct (truthy (room_id_cache self)) eqn:Ht; [simpl; auto |].
    destruct (ttwid net self) as [[tw self1] out1].
    destruct (requests_get net _ _) as [response |]; [| discriminate].
    destruct (Regex.search_room_id (text response)); simpl; auto. }
  unfold room_id. rewrite Hcached. simpl.
  destruct (String.eqb_spec r "") as [-> |]; [destruct (Hne eq_refl) |].
  reflexivity.
Qed.

(** X19.  Once [ttwid] has produced a non-empty cookie it is not fetched
    again: any later read, on whatever network, returns the same cookie
    with no effect at all (no [HttpGet], so no request, and no log line)
    and no change of the crawler. *)
Theorem ttwid_is_cached net net' self t :
  fst (fst (ttwid net self)) = Some t ->
  t <> "" ->
  let self' := snd (fst (ttwid net self)) in
  ttwid net' self' = (Some t, self', []).
Proof.
  intros Hres Hne self'.
  assert (Hcached : ttwid_cache self' = Some t).
  { unfold self'. revert Hres. unfold ttwid.
    destruct (truthy (ttwid_cache self)) eqn:Ht; [simpl; auto |].
    destruct (requests_get net _ _) as [response |]; [| discriminate].
    simpl; auto. }
  unfold ttwid. rewrite Hcached. simpl.
  destruct (String.eqb_spec t "") as [-> |]; [destruct (Hne eq_refl) |].
  reflexivity.
Qed.

(** X20.  Resolving the room never touches the aggregate, the dedup sets or the
    session fields, and never turns [is_live] on. *)
Theorem room_id_keeps_aggregate net self :
  let self' := snd (fst (room_id net self)) in
  data self' = data self
  /\ store self' = store self
  /\ cache_members self' = cache_members self
  /\ live_id self' = live_id self
  /\ today self' = today self
  /\ session_count self' = session_count self
  /\ (is_live self' = true -> is_live self = true).
Proof.
  assert (Htw : exists t, snd (fst (ttwid net self)) = set_ttwid_cache t self).
  { unfold ttwid. destruct self. repeat case_match; simpl; eauto. }
  destruct Htw as [t Htw]. unfold room_id.
  destruct (truthy (room_id_cache self)); [simpl; repeat split; auto |].
  destruct (ttwid net self) as [[tw self1] out1]. simpl in Htw. subst self1.
  destruct (requests_get net _ _) as [response |]; [| simpl; repeat split; auto].
  destruct (Regex.search_room_id (text response)); simpl; repeat split; auto.
  intros H; discriminate H.
Qed.

(** *** Instances *)

Lemma search_finds_room_id_witness :
  is_Some (Regex.search (list_ascii_of_string page_live)).
Proof.
  refine (search_finds_room_id (list_ascii_of_string "{x:1,")
            (list_ascii_of_string "7318296")
            (list_ascii_of_string ",status:2}") _ _).
  - discriminate.
  - repeat constructor.
Defined.

Lemma room_id_is_numeric_witness :
  fst (fst (room_id live_page (init "dy_anchor" "2024-05-01" 1))) = Some "7318296".
Proof.
  refine (proj1 (room_id_is_numeric live_page (init "dy_anchor" "2024-05-01" 1)
                   {| text := page_live; cookie_ttwid := Some "tw" |}
                   "7318296" _ _ _ _));
    reflexivity.
Defined.

Lemma room_id_is_cached_witness :
  let self' := snd (fst (room_id live_page (init "dy_anchor" "2024-05-01" 1))) in
  room_id unreachable self' = (Some "7318296", self', []).
Proof.
  refine (room_id_is_cached live_page unreachable
            (init "dy_anchor" "2024-05-01" 1) "7318296" _ _).
  - reflexivity.
  - discriminate.
Defined.

Lemma ttwid_is_cached_witness :
  let self' := snd (fst (ttwid live_page (init "dy_anchor" "2024-05-01" 1))) in
  ttwid unreachable self' = (Some "tw", self', []).
Proof.
  refine (ttwid_is_cached live_page unreachable
            (init "dy_anchor" "2024-05-01" 1) "tw" _ _).
  - reflexivity.
  - discriminate.
Defined.

(** ** What is signed *)

Example canonical_param_of_url :
  Sign.canonical_param (Sign.ws_url (Some "7318296") (Some "7318296")) =
  "live_id=1,aid=6383,version_code=180800,webcast_sdk_version=1.0.14,room_id=7318296,sub_room_id=,sub_channel_id=,did_rule=,user_unique_id=,device_platform=web,device_type=,ac=,identity=audience".
Proof. vm_compute. reflexivity. Qed.

Module SignFacts.
Import Text TextFacts Sign SignSpec.

Lemma before_all c (s : list ascii) : c ∉ s -> before c s = s.
Proof.
  induction s as [| d s IH]; intros H; simpl; [reflexivity |].
  destruct (Ascii.eqb_spec d c) as [-> | _].
  - destruct H. apply list_elem_of_here.
  - rewrite IH; [reflexivity |]. intros Hin. apply H, list_elem_of_further, Hin.
Qed.

Lemma split_join sep (ws : list (list ascii)) :
  ws <> [] -> Forall (fun w => sep ∉ w) ws -> split sep (join sep ws) = ws.
Proof.
  intros Hne Hall. induction Hall as [| w ws Hw Hws IH]; [destruct (Hne eq_refl) |].
  destruct ws as [| w' ws].
  - simpl. apply split_no_sep, Hw.
  - change (join sep (w :: w' :: ws)) with (w ++ sep :: join sep (w' :: ws)).
    rewrite split_at_sep by exact Hw. rewrite IH by discriminate. reflexivity.
Qed.

Lemma inert_not_in (s : string) c :
  Forall inert (list_ascii_of_string s) ->
  c = "&"%char \/ c = "="%char \/ c = "#"%char \/ c = "?"%char ->
  c ∉ list_ascii_of_string s.
Proof.
  intros Hs Hc Hin. rewrite Forall_forall in Hs.
  destruct (Hs c Hin) as [H1 [H2 [H3 [H4 _]]]].
  destruct Hc as [-> | [-> | [-> | ->]]]; auto.
Qed.

Lemma filter_safe (l : list ascii) :
  Forall (fun c => unsafe c = false) l ->
  List.filter (fun c => negb (unsafe c)) l = l.
Proof.
  induction 1 as [| c l Hc _ IH]; [reflexivity |].
  cbn [List.filter]. rewrite Hc, IH. reflexivity.
Qed.

Lemma inert_safe (s : string) :
  Forall inert (list_ascii_of_string s) ->
  Forall (fun c => unsafe c = false) (list_ascii_of_string s).
Proof.
  intros H. eapply Forall_impl; [exact H |]. intros c Hc. apply Hc.
Qed.

Lemma key_value_of k v :
  "="%char ∉ k -> "="%char ∉ v ->
  key_value (k ++ "="%char :: v) =
  Some (string_of_list_ascii k, string_of_list_ascii v).
Proof.
  intros Hk Hv. unfold key_value.
  rewrite bool_decide_eq_true_2
    by (apply elem_of_app; right; apply list_elem_of_here).
  rewrite split_at_sep by exact Hk. rewrite split_no_sep by exact Hv.
  reflexivity.
Qed.

Lemma url_text x1 x2 :
  Forall inert (list_ascii_of_string x1) ->
  Forall inert (list_ascii_of_string x2) ->
  url_query (list_ascii_of_string (ws_url (Some x1) (Some x2))) = join "&" (segments x1 x2).
Proof.
  intros H1 H2. unfold ws_url, fmt, url_query. rewrite !la_app.
  rewrite filter_safe
    by (repeat (apply Forall_app; split);
        first [ by_evaluation | apply inert_safe; assumption ]).
  rewrite before_all by (absent_by inert_not_in).
  cbn. rewrite <- ?app_assoc. cbn.
  reflexivity.
Qed.

Lemma url_segments x1 x2 :
  Forall inert (list_ascii_of_string x1) ->
  Forall inert (list_ascii_of_string x2) ->
  split "&" (url_query (list_ascii_of_string (ws_url (Some x1) (Some x2)))) = segments x1 x2.
Proof.
  intros H1 H2. rewrite url_text by assumption.
  apply split_join; [discriminate |].
  unfold segments. repeat constructor; (absent_by inert_not_in).
Qed.


Lemma wss_maps_puts (l : list (list ascii)) :
  wss_maps l = foldl put ∅ (key_value <$> l).
Proof.
  unfold wss_maps. generalize (∅ : gmap string string).
  induction l as [| i l IH]; intros m; [reflexivity |].
  simpl. rewrite IH. reflexivity.
Qed.

Lemma key_values_of_url x1 x2 :
  Forall inert (list_ascii_of_string x1) ->
  Forall inert (list_ascii_of_string x2) ->
  key_value <$> segments x1 x2 =
  [Some ("aid", "6383"); Some ("live_id", "1"); Some ("device_platform", "web");
   Some ("room_id", x1);
   Some ("support_wrds", "1"); Some ("version_code", "180800");
   Some ("webcast_sdk_version", "1.0.14"); Some ("update_version_code", "1.0.14");
   Some ("compress", "gzip");
   Some ("internal_ext",
         "internal_src:dim|wss_push_room_id:" +:+ x2 +:+
         "|wss_push_did:7319483754668557238|fetch_time:1721106114633|seq:1|wss_info:0-1721106114633-0-0");
   Some ("cursor", "d-1_u-1_h-1_t-1721106114633");
   Some ("host", "https://live.douyin.com");
   Some ("im_path", "/webcast/im/fetch/");
   Some ("user_unique_id", ""); Some ("identity", "audience");
   Some ("need_persist_msg_count", "15"); Some ("heartbeatDuration", "0")].
Proof.
  intros H1 H2. unfold segments. rewrite !fmap_cons, fmap_nil.
  repeat match goal with |- _ :: _ = _ :: _ => apply (f_equal2 cons) end;
    try (vm_compute; reflexivity).
  - change (list_ascii_of_string "room_id=" ++ list_ascii_of_string x1)
      with (list_ascii_of_string "room_id" ++ "="%char :: list_ascii_of_string x1).
    rewrite key_value_of by (absent_by inert_not_in).
    rewrite !string_of_list_ascii_of_string. reflexivity.
  - change (list_ascii_of_string "internal_ext=internal_src:dim|wss_push_room_id:" ++
            list_ascii_of_string x2 ++
            list_ascii_of_string "|wss_push_did:7319483754668557238|fetch_time:1721106114633|seq:1|wss_info:0-1721106114633-0-0")
      with (list_ascii_of_string "internal_ext" ++ "="%char ::
            (list_ascii_of_string "internal_src:dim|wss_push_room_id:" ++
             list_ascii_of_string x2 ++
             list_ascii_of_string "|wss_push_did:7319483754668557238|fetch_time:1721106114633|seq:1|wss_info:0-1721106114633-0-0")).
    rewrite key_value_of by (absent_by inert_not_in).
    rewrite <- !la_app, !string_of_list_ascii_of_string. reflexivity.
Qed.

Lemma signed_text_of_url x1 x2 :
  Forall inert (list_ascii_of_string x1) ->
  Forall inert (list_ascii_of_string x2) ->
  canonical_param (ws_url (Some x1) (Some x2)) = signed_text x1.
Proof.
  intros H1 H2. unfold canonical_param.
  rewrite url_segments by assumption.
  rewrite wss_maps_puts, key_values_of_url by assumption.
  vm_compute. reflexivity.
Qed.

End SignFacts.

(** X21.  The text that is signed for the address [_generate_ws_url] builds is
    fixed but for the room id: the thirteen parameters in their set
    order, [room_id] from the first reading of the property, the six
    parameters the address does not carry left empty.  The room ids must
    hold none of the characters &, =, # and ?, and no tab, line feed or
    carriage return, which [urlparse] would remove. *)
Theorem signed_text_of_generated_url room1 room2 :
  Forall Sign.inert (list_ascii_of_string (fmt room1)) ->
  Forall Sign.inert (list_ascii_of_string (fmt room2)) ->
  Sign.canonical_param (Sign.ws_url room1 room2) = SignSpec.signed_text (fmt room1).
Proof.
  intros H1 H2.
  exact (SignFacts.signed_text_of_url (fmt room1) (fmt room2) H1 H2).
Qed.

(** X22.  Signing the built address: with the runtime and the script present
    the signature is what [get_sign] returns for the MD5 digest of that
    text, so it does not depend on the second reading of the room id;
    without either there is no signature, whatever the address. *)
Theorem signature_of_generated_url env room1 room2 :
  Forall Sign.inert (list_ascii_of_string (fmt room1)) ->
  Forall Sign.inert (list_ascii_of_string (fmt room2)) ->
  Sign.generateSignature env (Sign.ws_url room1 room2) =
  if Sign.js_runtime env && Sign.script_exists env
  then match Sign.get_sign env
               (Sign.md5_hexdigest env (SignSpec.signed_text (fmt room1))) with
       | Some signature => signature
       | None => None
       end
  else None.
Proof.
  intros H1 H2. unfold Sign.generateSignature.
  assert (E : Sign.canonical_param (Sign.ws_url room1 room2) =
              SignSpec.signed_text (fmt room1))
    by exact (SignFacts.signed_text_of_url (fmt room1) (fmt room2) H1 H2).
  rewrite E.
  destruct (Sign.js_runtime env), (Sign.script_exists env); reflexivity.
Qed.

Lemma digits_inert (s : string) :
  Forall (fun c => Text.is_digit c = true) (list_ascii_of_string s) ->
  Forall Sign.inert (list_ascii_of_string s).
Proof.
  intros H. eapply Forall_impl; [exact H |]. intros c Hc.
  unfold Text.is_digit in Hc. apply andb_true_iff in Hc as [Hlo Hhi].
  apply Nat.leb_le in Hlo. apply Nat.leb_le in Hhi.
  assert (Hne : forall d, Text.is_digit d = false -> c <> d).
  { intros d Hd ->. unfold Text.is_digit in Hd.
    apply andb_false_iff in Hd as [Hd | Hd]; apply Nat.leb_gt in Hd; lia. }
  unfold Sign.inert, Sign.unsafe.
  rewrite !orb_false_iff, !Ascii.eqb_neq.
  repeat split; apply Hne; reflexivity.
Qed.

(** One read of [room_id] asks for the cookie at most once and then for
    the page at most once. *)
Lemma requests_of_room_id net self :
  requests (snd (room_id net self))
    `sublist_of` [live_url; live_url +:+ live_id self].
Proof.
  assert (Htw : requests (snd (ttwid net self)) = []
                \/ requests (snd (ttwid net self)) = [live_url]).
  { unfold ttwid. repeat case_match; cbn; auto. }
  unfold room_id.
  destruct (truthy (room_id_cache self)).
  { cbn. apply sublist_cons, sublist_cons, sublist_nil. }
  destruct (ttwid net self) as [[tw self1] out1]. cbn [snd] in Htw.
  assert (Hsub : forall tail,
             requests tail = [] ->
             requests (out1 ++ HttpGet (live_url +:+ live_id self) :: tail)
               `sublist_of` [live_url; live_url +:+ live_id self]).
  { intros tail Htail. unfold requests in *. rewrite omap_app.
    cbn. rewrite Htail.
    destruct Htw as [-> | ->]; cbn.
    - apply sublist_cons, sublist_skip, sublist_nil.
    - apply sublist_skip, sublist_skip, sublist_nil. }
  destruct (requests_get net _ _) as [response |];
    [destruct (Regex.search_room_id (text response)) |];
    cbn [snd]; apply Hsub; reflexivity.
Qed.

Lemma room_id_again net net' self r :
  fst (fst (room_id net self)) = Some r ->
  r <> "" ->
  room_id net' (snd (fst (room_id net self))) =
  (Some r, snd (fst (room_id net self)), []).
Proof.
  intros Hres Hne.
  assert (Hcached : room_id_cache (snd (fst (room_id net self))) = Some r).
  { revert Hres. unfold room_id.
    destruct (truthy (room_id_cache self)) eqn:Ht; [simpl; auto |].
    destruct (ttwid net self) as [[tw self1] out1].
    destruct (requests_get net _ _) as [response |]; [| discriminate].
    destruct (Regex.search_room_id (text response)); simpl; auto. }
  unfold room_id at 1. rewrite Hcached. simpl.
  destruct (String.eqb_spec r "") as [-> |]; [destruct (Hne eq_refl) |].
  reflexivity.
Qed.

(** X23.  [_generate_ws_url] reads [room_id] twice; when the first reading
    gives a non-empty id the second one is served from the cache, so the
    address carries the same id in both places, and building the address
    makes at most two requests: one for the cookie and then one for the
    page, neither of them twice. *)
Theorem generated_url_uses_one_room_id net self r :
  fst (fst (room_id net self)) = Some r ->
  r <> "" ->
  Sign._generate_ws_url net self =
  (Sign.ws_url (Some r) (Some r),
   snd (fst (room_id net self)),
   snd (room_id net self))
  /\ requests (snd (Sign._generate_ws_url net self))
       `sublist_of` [live_url; live_url +:+ live_id self].
Proof.
  intros Hres Hne.
  assert (Heq : Sign._generate_ws_url net self =
                (Sign.ws_url (Some r) (Some r),
                 snd (fst (room_id net self)),
                 snd (room_id net self))).
  { unfold Sign._generate_ws_url.
    pose proof (room_id_again net net self r Hres Hne) as Hagain.
    destruct (room_id net self) as [[room1 self1] out1]. simpl in *.
    rewrite Hagain. subst room1. rewrite app_nil_r. reflexivity. }
  split; [exact Heq |]. rewrite Heq. cbn [snd].
  apply requests_of_room_id.
Qed.

(** *** Instances *)

Lemma signed_text_of_generated_url_witness :
  Sign.canonical_param (Sign.ws_url (Some "7318296") None) =
  SignSpec.signed_text "7318296".
Proof.
  refine (signed_text_of_generated_url (Some "7318296") None _ _);
    unfold Sign.inert; by_evaluation.
Defined.

Lemma signature_of_generated_url_witness :
  Sign.generateSignature no_runtime (Sign.ws_url (Some "7318296") (Some "7318296"))
  = None.
Proof.
  refine (signature_of_generated_url no_runtime (Some "7318296") (Some "7318296") _ _);
    unfold Sign.inert; by_evaluation.
Defined.

Lemma generated_url_uses_one_room_id_witness :
  Sign._generate_ws_url live_page (init "dy_anchor" "2024-05-01" 1) =
  (Sign.ws_url (Some "7318296") (Some "7318296"),
   snd (fst (room_id live_page (init "dy_anchor" "2024-05-01" 1))),
   [HttpGet "https://live.douyin.com/";
    HttpGet "https://live.douyin.com/dy_anchor"]).
Proof.
  refine (proj1 (generated_url_uses_one_room_id live_page
                   (init "dy_anchor" "2024-05-01" 1) "7318296" _ _)).
  - reflexivity.
  - discriminate.
Defined.

(** X24.  From the page to the signed text: when the live page holds the
    pattern with the digits [rid] (and no digit beyond 0-9 after the
    marker), the address [_generate_ws_url] builds is signed over the
    fixed text with [room_id=rid]. *)
Theorem signed_text_of_resolved_room net self response rid :
  truthy (room_id_cache self) = false ->
  room_page net self = Some response ->
  digits_are_ascii (list_ascii_of_string (text response)) = true ->
  Regex.search_room_id (text response) = Some rid ->
  Sign.canonical_param (fst (fst (Sign._generate_ws_url net self))) =
  SignSpec.signed_text rid.
Proof.
  intros Hcache Hpage _ Hfound.
  destruct (room_id_found net self response rid Hcache Hpage Hfound)
    as [Hres [_ [_ [Hne [Hdigits _]]]]].
  unfold Sign._generate_ws_url.
  pose proof (room_id_again net net self rid Hres Hne) as Hagain.
  destruct (room_id net self) as [[room1 self1] out1]. simpl in *.
  rewrite Hagain. subst room1. simpl.
  apply (SignFacts.signed_text_of_url rid rid); apply digits_inert, Hdigits.
Qed.

Lemma signed_text_of_resolved_room_witness :
  Sign.canonical_param
    (fst (fst (Sign._generate_ws_url live_page (init "dy_anchor" "2024-05-01" 1)))) =
  SignSpec.signed_text "7318296".
Proof.
  refine (signed_text_of_resolved_room live_page (init "dy_anchor" "2024-05-01" 1)
            {| text := page_live; cookie_ttwid := Some "tw" |} "7318296" _ _ _ _);
    reflexivity.
Defined.

(** ** The connection loop, further *)



(** ** Helpers *)

Module HelperFacts.
Import Helpers.


Lemma get_in (k : nat) (s : string) c :
  String.get k s = Some c -> c ∈ list_ascii_of_string s.
Proof.
  revert k. induction s as [| d s IH]; intros k H; [discriminate |].
  destruct k as [| k]; simpl in H.
  - injection H as ->. apply list_elem_of_here.
  - apply list_elem_of_further. exact (IH k H).
Qed.

Lemma get_in_range (k : nat) (s : string) :
  (k < String.length s)%nat -> exists c, String.get k s = Some c.
Proof.
  revert k. induction s as [| d s IH]; intros k H; simpl in H; [lia |].
  destruct k as [| k]; simpl; [eauto |]. apply IH. lia.
Qed.

Lemma append_empty (a : string) : a +:+ "" = a.
Proof.
  induction a as [| c a IH]; [reflexivity |].
  change (String c (a +:+ "") = String c a). rewrite IH. reflexivity.
Qed.

Lemma append_step (a : string) c (b : string) :
  (a +:+ String c "") +:+ b = a +:+ String c b.
Proof.
  induction a as [| d a IH]; [reflexivity |].
  change (String d ((a +:+ String c "") +:+ b) = String d (a +:+ String c b)).
  rewrite IH. reflexivity.
Qed.

Lemma token_loop_spec (draws : list nat) :
  Forall (fun k => (k <= 62)%nat) draws ->
  forall acc,
    exists added,
      token_loop draws acc = Some (acc +:+ added)
      /\ String.length added = length draws
      /\ Forall (fun c => c ∈ list_ascii_of_string base_str)
                (list_ascii_of_string added).
Proof.
  induction 1 as [| k draws Hk _ IH]; intros acc.
  - exists "". split; [| split; [reflexivity | constructor]].
    simpl. rewrite append_empty. reflexivity.
  - destruct (get_in_range k base_str) as [c Hc]; [simpl; lia |].
    cbn [token_loop]. rewrite Hc.
    destruct (IH (acc +:+ String c "")) as [added [Hloop [Hlen Hall]]].
    exists (String c added). split; [| split].
    + rewrite Hloop, append_step. reflexivity.
    + simpl. rewrite Hlen. reflexivity.
    + simpl. constructor; [exact (get_in _ _ _ Hc) | exact Hall].
Qed.

End HelperFacts.

(** X26.  [generateMsToken] returns a token of exactly the requested length
    made of characters of its alphabet, given that every random index is
    within the range [random.randint] is asked for. *)
Theorem ms_token_length (draws : list nat) :
  Forall (fun k => (k <= 62)%nat) draws ->
  exists token,
    Helpers.generateMsToken draws = Some token
    /\ String.length token = length draws
    /\ Forall (fun c => c ∈ list_ascii_of_string Helpers.base_str)
              (list_ascii_of_string token).
Proof.
  intros H. destruct (HelperFacts.token_loop_spec draws H "") as [added Hadded].
  exists added. exact Hadded.
Qed.

(** X27.  [get_resource_path] returns one of its four candidates, the first
    that exists; it returns a path that does not exist only when none of
    the four does, and then it is the first candidate. *)
Theorem resource_path_prefers_existing fs relative_path :
  let path := Helpers.get_resource_path fs relative_path in
  path ∈ Helpers.possible_paths fs relative_path
  /\ (Helpers.path_exists fs path = false ->
      Forall (fun p => Helpers.path_exists fs p = false)
             (Helpers.possible_paths fs relative_path)
      /\ path = Helpers.path_join (Helpers.base_path fs) relative_path)
  /\ forall before after,
       Helpers.possible_paths fs relative_path = before ++ path :: after ->
       Helpers.path_exists fs path = true ->
       path ∉ before ->
       Forall (fun p => Helpers.path_exists fs p = false) before.
Proof.
  intros path. unfold path, Helpers.get_resource_path.
  destruct (List.find _ _) as [p |] eqn:Hfind.
  - pose proof (find_some _ _ Hfind) as [Hin Hex].
    split; [apply list_elem_of_In; exact Hin |].
    split; [intros Hno; rewrite Hex in Hno; discriminate Hno |].
    intros before after Hsplit _ Hnot.
    rewrite Hsplit in Hfind. clear Hsplit Hin.
    induction before as [| q before IH]; [constructor |].
    simpl in Hfind. destruct (Helpers.path_exists fs q) eqn:Hq.
    + injection Hfind as ->. destruct Hnot. apply list_elem_of_here.
    + constructor; [exact Hq |]. apply IH; [exact Hfind |].
      intros Hin. apply Hnot, list_elem_of_further, Hin.
  - split; [apply list_elem_of_here |].
    assert (Hall : Forall (fun p => Helpers.path_exists fs p = false)
                     (Helpers.possible_paths fs relative_path)).
    { apply Forall_forall. intros p Hp.
      apply list_elem_of_In in Hp.
      exact (find_none _ _ Hfind p Hp). }
    split; [intros _; split; [exact Hall | reflexivity] |].
    intros before after Hsplit Hex _.
    apply Forall_inv in Hall. simpl in Hall. rewrite Hall in Hex. discriminate Hex.
Qed.

(** X28.  [get_js_runtime] from an empty cache prefers py_mini_racer to
    PyExecJS and has no runtime only when neither imports; a runtime once
    obtained is served again whatever is installed later, until
    [clear_js_runtime_cache]; a failure is not cached. *)
Theorem js_runtime_is_cached inst inst' :
  let first := Helpers.get_js_runtime inst None in
  (Helpers.py_mini_racer inst = true -> fst first = Some Helpers.MiniRacer)
  /\ (fst first = None <->
      Helpers.py_mini_racer inst = false /\ Helpers.execjs inst = false)
  /\ (forall rt, fst first = Some rt ->
        Helpers.get_js_runtime inst' (snd first) = (Some rt, Some rt))
  /\ (fst first = None ->
        Helpers.get_js_runtime inst' (snd first) = Helpers.get_js_runtime inst' None)
  /\ Helpers.get_js_runtime inst' (Helpers.clear_js_runtime_cache (snd first)) =
     Helpers.get_js_runtime inst' None.
Proof.
  unfold Helpers.get_js_runtime, Helpers.clear_js_runtime_cache.
  destruct (Helpers.py_mini_racer inst), (Helpers.execjs inst); simpl;
    repeat split; try discriminate; try tauto;
    try (intros rt H; injection H as <-; reflexivity);
    try (intros [H1 H2]; discriminate).
Qed.

(** *** Instances *)

Lemma ms_token_length_witness :
  exists token,
    Helpers.generateMsToken [0; 26; 62; 61]%nat = Some token
    /\ String.length token = 4%nat
    /\ Forall (fun c => c ∈ list_ascii_of_string Helpers.base_str)
              (list_ascii_of_string token).
Proof.
  refine (ms_token_length [0; 26; 62; 61]%nat _).
  repeat constructor; lia.
Defined.

(** ** Background loops *)

Module BackgroundFacts.
Import Background.

Lemma effects_lift out : effects (lift out) = out.
Proof.
  induction out as [| e out IH]; [reflexivity |].
  change (effects (lift (e :: out))) with (e :: effects (lift out)).
  rewrite IH. reflexivity.
Qed.

Lemma effects_app a b : effects (a ++ b) = effects a ++ effects b.
Proof. unfold effects. apply omap_app. Qed.

End BackgroundFacts.

(** X29.  The heartbeat, round by round.  What it does is fixed by the
    number [m] of rounds that go well: each of them sends one envelope of
    type "hb" with an empty payload and the current time as log id, then
    sleeps 10 seconds.  The loop goes on for as long as it is watched
    unless round [m] finds the crawler stopped or the socket gone, and
    then nothing more happens, or unless its send raises, and then that
    is logged and nothing is sent after it. *)
Theorem heartbeat_shape rt env fuel n :
  exists m tail,
    Background._heartbeat rt env fuel n =
      flat_map (fun i => [Background.Send (Background.ping_msg rt (env i));
                          Background.Sleep 10]) (seq n m) ++ tail
    /\ (forall i, (n <= i < n + m)%nat ->
          Background.running (env i) = true
          /\ Background.connected (env i) = true
          /\ Background.send_ok (env i) = true)
    /\ ((m = fuel /\ tail = [])
        \/ ((m < fuel)%nat
            /\ Background.running (env (n + m)%nat)
               && Background.connected (env (n + m)%nat) = false
            /\ tail = [])
        \/ ((m < fuel)%nat
            /\ Background.running (env (n + m)%nat) = true
            /\ Background.connected (env (n + m)%nat) = true
            /\ Background.send_ok (env (n + m)%nat) = false
            /\ tail = [Background.Send (Background.ping_msg rt (env (n + m)%nat));
                       Background.LogFailed])).
Proof.
  revert n. induction fuel as [| fuel IH]; intros n.
  - exists 0%nat, []. split; [reflexivity |].
    split; [intros i Hi; lia | left; split; reflexivity].
  - simpl.
    destruct (Background.running (env n)) eqn:Hrun;
      [destruct (Background.connected (env n)) eqn:Hconn |]; simpl.
    + destruct (Background.send_ok (env n)) eqn:Hsend.
      * destruct (IH (S n)) as [m [tail [Hev [Hall Htail]]]].
        exists (S m), tail. split; [| split].
        -- rewrite Hev. reflexivity.
        -- intros i Hi. destruct (decide (i = n)) as [-> | Hne]; [auto |].
           apply Hall. lia.
        -- replace (n + S m)%nat with (S n + m)%nat by lia.
           destruct Htail as [[-> ->] | [[Hm H] | [Hm H]]].
           ++ left. split; reflexivity.
           ++ right. left. split; [lia | exact H].
           ++ right. right. split; [lia | exact H].
      * exists 0%nat, [Background.Send (Background.ping_msg rt (env n));
                       Background.LogFailed].
        split; [reflexivity |]. split; [intros i Hi; lia |].
        right. right. rewrite Nat.add_0_r.
        repeat split; try assumption. lia.
    + exists 0%nat, []. split; [reflexivity |].
      split; [intros i Hi; lia |].
      right. left. rewrite Nat.add_0_r, Hrun, Hconn.
      repeat split. lia.
    + exists 0%nat, []. split; [reflexivity |].
      split; [intros i Hi; lia |].
      right. left. rewrite Nat.add_0_r, Hrun.
      repeat split. lia.
Qed.

(** The auto-save worker is a run of the crawler, when the steps of the
    threads do not overlap: what it and the other threads do to the
    crawler while it is watched are the steps of the other threads with
    a snapshot write after each sleep during which the flag stayed set;
    the crawler and the effects are those of [run] on that list of
    steps. *)
Theorem auto_save_worker_is_a_run rt interval env fuel :
  forall n self,
    let result := Background._auto_save_worker rt interval env fuel n self in
    fst result = fst (run rt (Background.schedule env fuel n) self)
    /\ Background.effects (snd result) =
       snd (run rt (Background.schedule env fuel n) self).
Proof.
  induction fuel as [| fuel IH]; intros n self; [split; reflexivity |].
  cbv zeta. simpl.
  destruct (Background.flag (env n)); [| split; reflexivity].
  rewrite !run_app. unfold and_then.
  destruct (run rt (Background.meanwhile (env n)) self) as [self1 out1].
  destruct (Background.flag_after (env n)).
  - simpl run. unfold and_then.
    destruct (_save_data rt _ _ self1) as [self2 out2].
    specialize (IH (S n) self2). cbv zeta in IH. destruct IH as [IH1 IH2].
    destruct (Background._auto_save_worker rt interval env fuel (S n) self2)
      as [self3 events].
    destruct (run rt (Background.schedule env fuel (S n)) self2) as [self3' out3].
    simpl in *. split; [exact IH1 |].
    change (Background.effects
              (Background.Sleep interval ::
               Background.lift out1 ++ Background.lift out2 ++ events))
      with (Background.effects
              (Background.lift out1 ++ Background.lift out2 ++ events)).
    rewrite !BackgroundFacts.effects_app, !BackgroundFacts.effects_lift, IH2.
    reflexivity.
  - simpl run.
    specialize (IH (S n) self1). cbv zeta in IH. destruct IH as [IH1 IH2].
    destruct (Background._auto_save_worker rt interval env fuel (S n) self1)
      as [self3 events].
    destruct (run rt (Background.schedule env fuel (S n)) self1) as [self3' out3].
    simpl in *. split; [exact IH1 |].
    change (Background.effects
              (Background.Sleep interval ::
               Background.lift out1 ++ Background.lift [] ++ events))
      with (Background.effects
              (Background.lift out1 ++ events)).
    rewrite !BackgroundFacts.effects_app, !BackgroundFacts.effects_lift, IH2.
    reflexivity.
Qed.

(** A second conversion of the gift dictionaries finds nothing to do. *)
Lemma convert_loop_idem rt (entries : list (string * loc)) (h : gmap loc GiftStat) :
  foldr (fun entry h => alter (senders_to_list rt) entry.2 h)
    (foldr (fun entry h => alter (senders_to_list rt) entry.2 h) h entries)
    entries =
  foldr (fun entry h => alter (senders_to_list rt) entry.2 h) h entries.
Proof.
  apply map_eq. intros l. rewrite !convert_loop_lookup.
  destruct (decide (l ∈ entries.*2)); [| reflexivity].
  destruct (h !! l); simpl; [| reflexivity].
  rewrite senders_to_list_idem. reflexivity.
Qed.

(** A snapshot write after a snapshot write: the crawler stays as it is
    and the snapshot is the one of the first write, at the new time. *)
Lemma save_data_again rt t1 io1 t2 io2 self :
  exists snap,
    snd (_save_data rt t1 io1 self) =
      (if io1
       then [FileWrite (session_path self) snap; LogSaved (session_path self)]
       else [LogError InSave])
    /\ _save_data rt t2 io2 (fst (_save_data rt t1 io1 self)) =
       (fst (_save_data rt t1 io1 self),
        if io2
        then [FileWrite (session_path self) (saved_at t2 snap);
              LogSaved (session_path self)]
        else [LogError InSave]).
Proof.
  rewrite save_data_frame. unfold _save_data. eexists. split.
  - destruct io1; reflexivity.
  - cbn [store data set_store live_id today session_count].
    rewrite convert_loop_idem. destruct io2; reflexivity.
Qed.

(** X30.  [stop] can be called again.  Whether or not there is a socket and
    whether or not closing it raises, the second call leaves the flags
    and the crawler as the first call left them; and when both calls can
    write, both write the session's file, the second one with the
    snapshot of the first at its own save time: nothing of what was
    collected is lost or changed by stopping twice. *)
Theorem stop_is_repeatable rt ws1 ok1 t1 io1 ws2 ok2 t2 io2 ctl self :
  let first := Background.stop rt ws1 ok1 t1 io1 ctl self in
  let second :=
    Background.stop rt ws2 ok2 t2 io2 (fst (fst first)) (snd (fst first)) in
  fst second = fst first
  /\ (io1 = true -> io2 = true ->
      exists snap,
        written (Background.effects (snd first)) = [(session_path self, snap)]
        /\ written (Background.effects (snd second)) =
           [(session_path self, saved_at t2 snap)]).
Proof.
  cbv zeta. unfold Background.stop.
  destruct (save_data_again rt t1 io1 t2 io2 self) as [snap [Hfirst Hsecond]].
  destruct (_save_data rt t1 io1 self) as [self1 out1].
  cbn [fst snd] in *. rewrite Hsecond. cbn [fst snd].
  split; [reflexivity |].
  intros -> ->. exists snap. subst out1.
  rewrite !BackgroundFacts.effects_app, !BackgroundFacts.effects_lift.
  destruct ws1, ok1, ws2, ok2; split; reflexivity.
Qed.

(** ** More examples *)

Example script_found_next_to_module :
  Helpers.get_resource_path Helpers.packaged "sign.js" = "/opt/crawler/sign.js".
Proof. vm_compute. reflexivity. Qed.

Example heartbeat_three_rounds :
  Background.frames
    (Background._heartbeat Demo.runtime Background.steady 3 0) =
  [Background.ping_msg Demo.runtime (Background.steady 0);
   Background.ping_msg Demo.runtime (Background.steady 1);
   Background.ping_msg Demo.runtime (Background.steady 2)].
Proof. vm_compute. reflexivity. Qed.

Example signed_text_without_room :
  Sign.canonical_param (Sign.ws_url None None) = SignSpec.signed_text "None".
Proof. vm_compute. reflexivity. Qed.
